(** * NetEnforcer: handle allocation and client reconciliation

    A shallow embedding of [src/NetEnforcer/NetEnforcer.cpp].  The program
    keeps a table of clients keyed by (destination, source) address and, for
    each update, emits the Linux traffic-control commands that bring the
    kernel in line with the client's priority and rate-limit chain.

    Conventions.
    - [unsigned int] is a [Z] reduced modulo 2^32 after every operation,
      [uint64_t] a [Z] reduced modulo 2^64, [double] a primitive binary64
      float.
    - A call of one of the [tc] wrappers ([addHTBClass], [removeFilter], ...)
      is recorded as a [Cmd] holding the arguments of the call; the functions
      return the list of commands in the order they are run.
    - The globals [g_clients] and [g_nextId] form the [State] threaded
      through every operation; [g_maxRate], [g_numPriorities] and
      [g_numLevels] are fixed after start-up and are section variables.
    - The clock and the kernel's byte counters are read from an [Env]. *)

From Stdlib Require Import ZArith Lia List Bool.
From Stdlib Require Import Floats.
From stdpp Require Import gmap list.

Local Open Scope Z_scope.

(** ** Machine integers and doubles *)

Definition u32 (x : Z) : Z := x mod 2 ^ 32.
Definition u64 (x : Z) : Z := x mod 2 ^ 64.

(** Conversion of an unsigned integer to [double] (round to nearest even;
    exact below 2^53). *)
Definition uint_to_double (z : Z) : float :=
  SF2Prim (binary_normalize prec emax z 0 false).

(** Conversion of a [double] to [unsigned int]: the fractional part is
    dropped.  C++ leaves the result undefined when the truncated value does
    not fit; here it is reduced modulo 2^32, and NaN and the infinities
    give 0. *)
Definition double_to_uint (x : float) : Z :=
  match Prim2SF x with
  | S754_finite s m e =>
      let mag := if 0 <=? e then Z.pos m * 2 ^ e else Z.pos m / 2 ^ (- e) in
      u32 (if s then - mag else mag)
  | _ => 0
  end.

(** [a[i]] on a C array of doubles.  Reading past the end is undefined in
    C++; the model reads 0 there. *)
Definition index (a : list float) (i : Z) : float :=
  nth (Z.to_nat i) a 0%float.

(** Modelled from the spec: [ConvertTimeToSeconds] lives in
    [common/time.hpp], which is not part of the sources at hand; the
    specification describes timestamps in nanoseconds and the allowance as
    rate times elapsed seconds. *)
Definition ConvertTimeToSeconds_ns (t : Z) : float :=
  (uint_to_double t / 1000000000)%float.

(** ** Data model *)

Record Client := mkClient {
  id : Z;
  priority : Z;
  rateLimitLength : Z;
  rate : float;
  lastSentBytesTime : Z;
  maxSentBytes : float;
  prevSentBytes : Z;
  sentBytes : Z
}.

(** The value-initialised [Client] that [std::map::operator[]] inserts for a
    missing key. *)
Definition Client_zero : Client :=
  mkClient 0 0 0 0%float 0 0%float 0 0.

Record State := mkState {
  g_clients : gmap (Z * Z) Client;
  g_nextId : Z
}.

Definition initial_state : State := mkState ∅ 0.

(** What a call reads from outside the process: the monotonic clock and the
    [Sent] counter that [tc -s class show] reports for a class. *)
Record Env := mkEnv {
  GetTime : Z;
  readSentBytes : Z -> Z -> Z
}.

(** The traffic-control wrappers, one constructor per wrapper, holding the
    wrapper's arguments. *)
Inductive Cmd : Type :=
| RemoveQdisc (parentHandle parentMinor childHandle : Z)
| RemoveClass (parentHandle minor : Z)
| RemoveFilter (parentHandle id : Z)
| AddHTBQdisc (parentHandle parentMinor childHandle : Z)
| AddHTBClass (parentHandle minor rate ceil burst cburst : Z)
| AddFilter (parentHandle id s_dstAddr s_srcAddr minor : Z)
| ClassShow (parentHandle : Z).

(** Request types of the RPC interface ([prot/net_prot.x]), as the handlers
    use them. *)
Module Prot.

Record NetClient := mkNetClient {
  s_dstAddr : Z;
  s_srcAddr : Z
}.

Record NetClientUpdate := mkNetClientUpdate {
  client : NetClient;
  priority : Z;
  rateLimitRates : list float;
  rateLimitBursts : list float
}.

(** The argument of an occupancy query carries the same two addresses. *)
Definition NetGetOccupancyArgs : Type := NetClient.

End Prot.

Section NetEnforcer.

Variable g_maxRate : Z.
Variable g_numPriorities : Z.
Variable g_numLevels : Z.
Variable ConvertTimeToSeconds : Z -> float.

(** ** Handle allocator *)

Definition rootHTBHandle : Z := 1.

Definition rootHTBMinor (priority : Z) : Z := u32 (priority + 1).

Definition rootHTBMinorHelper (priority : Z) : Z :=
  u32 (priority + rootHTBMinor g_numPriorities).

Definition rootHTBMinorDefault : Z := rootHTBMinorHelper g_numPriorities.

Definition DSMARKHandle (priority : Z) : Z :=
  u32 (u32 (priority + rootHTBMinorDefault) + 1).

Definition HTBBaseHandle (priority : Z) : Z :=
  u32 (priority + DSMARKHandle g_numPriorities).

Definition HTBHandle (id priority level : Z) : Z :=
  let offset :=
    u32 (u32 (u32 (u32 (id * g_numPriorities) * g_numLevels)
              + u32 (priority * g_numLevels))
         + level) in
  u32 (offset + HTBBaseHandle g_numPriorities).

Definition HTBMinor (id level : Z) : Z :=
  if level =? 0 then u32 (id + 2) else 1.

(** Everything the allocator hands out, as one type: which function was
    called and on which arguments. *)
Inductive Allocation : Type :=
| ARootMinor (priority : Z)
| ARootMinorHelper (priority : Z)
| ARootMinorDefault
| ADSMARK (priority : Z)
| AHTBBase (priority : Z)
| AHTB (id priority level : Z).

Definition allocated (a : Allocation) : Z :=
  match a with
  | ARootMinor p => rootHTBMinor p
  | ARootMinorHelper p => rootHTBMinorHelper p
  | ARootMinorDefault => rootHTBMinorDefault
  | ADSMARK p => DSMARKHandle p
  | AHTBBase p => HTBBaseHandle p
  | AHTB i p l => HTBHandle i p l
  end.

Definition is_priority (p : Z) : Prop := 0 <= p < g_numPriorities.
Definition is_level (l : Z) : Prop := 0 <= l < g_numLevels.
Definition is_uint (x : Z) : Prop := 0 <= x < 2 ^ 32.

(** Arguments in the ranges the allocator is used on: a priority below
    [g_numPriorities], a level below [g_numLevels], any client id. *)
Definition in_range (a : Allocation) : Prop :=
  match a with
  | ARootMinor p | ARootMinorHelper p | ADSMARK p | AHTBBase p => is_priority p
  | ARootMinorDefault => True
  | AHTB i p l => is_uint i /\ is_priority p /\ is_level l
  end.

(** The largest per-client handle of client [id] still fits in 32 bits. *)
Definition handles_fit (id : Z) : Prop :=
  0 <= id /\
  id * g_numPriorities * g_numLevels
    + g_numPriorities * g_numLevels + 4 * g_numPriorities + 2 <= 2 ^ 32.

Definition no_wrap (a : Allocation) : Prop :=
  match a with
  | AHTB i _ _ => handles_fit i
  | _ => 0 <= g_numPriorities /\ 4 * g_numPriorities + 2 <= 2 ^ 32
  end.


(** ** Occupancy accounting *)

Definition set_counters (c : Client) (last : Z) (maxSent : float)
    (prev sent : Z) : Client :=
  mkClient (id c) (priority c) (rateLimitLength c) (rate c)
           last maxSent prev sent.

Definition set_policy (c : Client) (newPriority newLength : Z)
    (newRate : float) : Client :=
  mkClient (id c) newPriority newLength newRate
           (lastSentBytesTime c) (maxSentBytes c) (prevSentBytes c)
           (sentBytes c).

Definition set_prevSentBytes (c : Client) (prev : Z) : Client :=
  set_counters c (lastSentBytesTime c) (maxSentBytes c) prev (sentBytes c).

(** [getSentBytes]: runs [tc -s class show] on the parent qdisc and returns
    the counter found for the class (0 when the class is not listed). *)
Definition getSentBytes (env : Env) (parentHandle minor : Z) : Z * list Cmd :=
  (u64 (readSentBytes env parentHandle minor), [ClassShow parentHandle]).

Definition updateSentBytes (env : Env) (c : Client) : Client * list Cmd :=
  if 0 <? rateLimitLength c then
    let '(currSentBytes, t) :=
      getSentBytes env (HTBBaseHandle (priority c)) (HTBMinor (id c) 0) in
    let sent := u64 (sentBytes c + u64 (currSentBytes - prevSentBytes c)) in
    let now := u64 (GetTime env) in
    let maxSent :=
      (maxSentBytes c
       + rate c * ConvertTimeToSeconds (u64 (now - lastSentBytesTime c)))%float in
    (set_counters c now maxSent currSentBytes sent, t)
  else (c, []).

(** ** Reconciliation engine *)

(** The local variables of the chain walk in [updateClient]. *)
Record Walk := mkWalk {
  level : Z;
  parentHandle : Z;
  minor : Z;
  childHandle : Z
}.

Section UpdateClient.

Variables (id priority rateLimitLength : Z).
Variables (rateLimitRates rateLimitBursts : list float).
Variables (oldPriority oldRateLimitLength : Z).

(** One pass through the body of the [while] loop. *)
Definition walk_body (w : Walk) : Walk * list Cmd :=
  let '(w1, t1) :=
    if 0 <? level w then
      (mkWalk (level w) (childHandle w) (HTBMinor id (level w))
              (HTBHandle id priority (level w)),
       if (oldRateLimitLength <=? u32 (level w * 2))
          || negb (oldPriority =? priority)
       then [AddHTBQdisc (parentHandle w) (minor w) (childHandle w)]
       else [])
    else (w, []) in
  let rate := double_to_uint (index rateLimitRates (u32 (level w * 2))) in
  let burst := double_to_uint (index rateLimitBursts (u32 (level w * 2))) in
  let '(ceil, cburst) :=
    if u32 (u32 (level w * 2) + 1) <? rateLimitLength then
      (double_to_uint (index rateLimitRates (u32 (u32 (level w * 2) + 1))),
       double_to_uint (index rateLimitBursts (u32 (u32 (level w * 2) + 1))))
    else (rate, burst) in
  (mkWalk (u32 (level w + 1)) (parentHandle w1) (minor w1) (childHandle w1),
   t1 ++ [AddHTBClass (parentHandle w1) (minor w1) rate ceil burst cburst]).

(** The [while ((level * 2) < rateLimitLength)] loop; [None] when [fuel]
    passes are not enough to leave it. *)
Fixpoint walk (fuel : nat) (w : Walk) : option (Walk * list Cmd) :=
  if u32 (level w * 2) <? rateLimitLength then
    match fuel with
    | O => None
    | S fuel' =>
        let '(w', t) := walk_body w in
        match walk fuel' w' with
        | Some (w'', t') => Some (w'', t ++ t')
        | None => None
        end
    end
  else Some (w, []).

(** The part of [updateClient] after the loop that only issues commands:
    the per-priority filter, the root filter, pruning of the old chain and
    removal of the old filter and class. *)
Definition base_filter_step (s_dstAddr s_srcAddr : Z) : list Cmd :=
  if (0 <? rateLimitLength)
     && ((oldRateLimitLength =? 0) || negb (oldPriority =? priority))
  then [AddFilter (HTBBaseHandle priority) id s_dstAddr s_srcAddr
                  (HTBMinor id 0)]
  else [].

Definition root_filter_step (s_dstAddr s_srcAddr : Z) (c : Client)
    : Client * list Cmd :=
  if negb (oldPriority =? priority) then
    (set_prevSentBytes c 0,
     (if oldPriority <? g_numPriorities
      then [RemoveFilter rootHTBHandle id] else [])
     ++
     (if priority <? g_numPriorities
      then [AddFilter rootHTBHandle id s_dstAddr s_srcAddr
                      (rootHTBMinor priority)]
      else []))
  else (c, []).

Definition prune_step (w : Walk) : list Cmd :=
  if 2 <? oldRateLimitLength then
    if negb (oldPriority =? priority) then
      [RemoveQdisc (HTBBaseHandle oldPriority) (HTBMinor id 0)
                   (HTBHandle id oldPriority 0)]
    else if u32 (level w * 2) <? oldRateLimitLength then
      [RemoveQdisc (parentHandle w) (minor w) (childHandle w)]
    else []
  else [].

Definition drop_step : list Cmd :=
  if (0 <? oldRateLimitLength)
     && ((rateLimitLength =? 0) || negb (oldPriority =? priority))
  then [RemoveFilter (HTBBaseHandle oldPriority) id;
        RemoveClass (HTBBaseHandle oldPriority) (HTBMinor id 0)]
  else [].

End UpdateClient.

(** The first half of [updateClient]: the client record the reference [c]
    points to, the next free id, the old priority and chain length, and the
    commands run.  A new client gets the next id and fresh counters, a known
    one has its byte counters brought up to date. *)
Definition snapshot (env : Env) (addr : Z * Z) (st : State)
    : Client * Z * Z * Z * list Cmd :=
  match g_clients st !! addr with
  | None =>
      (mkClient (g_nextId st) 0 0 0%float (u64 (GetTime env)) 0%float 0 0,
       u32 (g_nextId st + 1), g_numPriorities, 0, [])
  | Some c =>
      let '(c', t) := updateSentBytes env c in
      (c', g_nextId st, priority c', rateLimitLength c', t)
  end.

(** The client record as [updateClient] leaves it just before the final
    [erase] test, the next free id, and the commands run so far. *)
Definition reconcile (fuel : nat) (env : Env)
    (s_dstAddr s_srcAddr priority rateLimitLength : Z)
    (rateLimitRates rateLimitBursts : list float) (st : State)
    : option (Client * Z * list Cmd) :=
  let '(c0, nextId, oldPriority, oldRateLimitLength, t0) :=
    snapshot env (s_dstAddr, s_srcAddr) st in
  let c1 :=
    set_policy c0 priority rateLimitLength
      (if 0 <? rateLimitLength then index rateLimitRates 0
       else uint_to_double g_maxRate) in
  let id := id c1 in
  match
    walk id priority rateLimitLength rateLimitRates rateLimitBursts
         oldPriority oldRateLimitLength fuel
         (mkWalk 0 (HTBBaseHandle priority) (HTBMinor id 0)
                 (HTBHandle id priority 0))
  with
  | None => None
  | Some (w, t1) =>
      let t2 :=
        base_filter_step id priority rateLimitLength
                         oldPriority oldRateLimitLength s_dstAddr s_srcAddr in
      let '(c2, t3) :=
        root_filter_step id priority oldPriority s_dstAddr s_srcAddr c1 in
      let t4 := prune_step id priority oldPriority oldRateLimitLength w in
      let t5 :=
        drop_step id priority rateLimitLength oldPriority oldRateLimitLength in
      Some (c2, nextId, t0 ++ t1 ++ t2 ++ t3 ++ t4 ++ t5)
  end.

Definition updateClient (fuel : nat) (env : Env)
    (s_dstAddr s_srcAddr priority rateLimitLength : Z)
    (rateLimitRates rateLimitBursts : list float) (st : State)
    : option (State * list Cmd) :=
  let addr := (s_dstAddr, s_srcAddr) in
  let newClient := bool_decide (g_clients st !! addr = None) in
  if newClient && (priority =? g_numPriorities) then Some (st, [])
  else
    match reconcile fuel env s_dstAddr s_srcAddr priority rateLimitLength
                    rateLimitRates rateLimitBursts st with
    | None => None
    | Some (c, nextId, t) =>
        Some (mkState (if priority =? g_numPriorities
                       then delete addr (g_clients st)
                       else <[addr := c]> (g_clients st))
                      nextId,
              t)
    end.

(** ** Occupancy query *)

(** [g_clients[addr]]: the entry for [addr], inserted value-initialised when
    the key is missing. *)
Definition subscript (addr : Z * Z) (m : gmap (Z * Z) Client)
    : Client * gmap (Z * Z) Client :=
  match m !! addr with
  | Some c => (c, m)
  | None => (Client_zero, <[addr := Client_zero]> m)
  end.

Definition getOccupancy (env : Env) (s_dstAddr s_srcAddr : Z) (st : State)
    : float * State * list Cmd :=
  let addr := (s_dstAddr, s_srcAddr) in
  let '(c, m) := subscript addr (g_clients st) in
  if negb (priority c =? 0) then
    let '(c1, t) := updateSentBytes env c in
    let occupancy := (uint_to_double (sentBytes c1) / maxSentBytes c1)%float in
    let occupancy := if (1 <? occupancy)%float then 1%float else occupancy in
    let c2 := set_counters c1 (lastSentBytesTime c1) 0%float
                           (prevSentBytes c1) 0 in
    (occupancy, mkState (<[addr := c2]> m) (g_nextId st), t)
  else (0%float, mkState m (g_nextId st), []).

(** ** RPC surface *)

(** The handlers walk their argument array in order; item [i] of a batch
    reads the outside world as [world i]. *)
Fixpoint update_clients_from (fuel : nat) (world : nat -> Env) (i : nat)
    (args : list Prot.NetClientUpdate) (st : State)
    : option (State * list Cmd) :=
  match args with
  | [] => Some (st, [])
  | clientUpdate :: rest =>
      let priority := Prot.priority clientUpdate in
      let rateLimitLength :=
        Z.of_nat (length (Prot.rateLimitRates clientUpdate)) in
      if g_numPriorities <=? priority then
        update_clients_from fuel world (S i) rest st
      else if u32 (u32 (g_numLevels + 1) * 2) <? rateLimitLength then
        update_clients_from fuel world (S i) rest st
      else
        match updateClient fuel (world i)
                (Prot.s_dstAddr (Prot.client clientUpdate))
                (Prot.s_srcAddr (Prot.client clientUpdate))
                priority rateLimitLength
                (Prot.rateLimitRates clientUpdate)
                (Prot.rateLimitBursts clientUpdate) st with
        | None => None
        | Some (st', t) =>
            match update_clients_from fuel world (S i) rest st' with
            | None => None
            | Some (st'', t') => Some (st'', t ++ t')
            end
        end
  end.

Definition net_enforcer_update_clients_svc (fuel : nat) (world : nat -> Env)
    (argp : list Prot.NetClientUpdate) (st : State)
    : option (State * list Cmd) :=
  update_clients_from fuel world 0 argp st.

Fixpoint remove_clients_from (fuel : nat) (world : nat -> Env) (i : nat)
    (args : list Prot.NetClient) (st : State) : option (State * list Cmd) :=
  match args with
  | [] => Some (st, [])
  | client :: rest =>
      match updateClient fuel (world i)
              (Prot.s_dstAddr client) (Prot.s_srcAddr client)
              g_numPriorities 0 [] [] st with
      | None => None
      | Some (st', t) =>
          match remove_clients_from fuel world (S i) rest st' with
          | None => None
          | Some (st'', t') => Some (st'', t ++ t')
          end
      end
  end.

Definition net_enforcer_remove_clients_svc (fuel : nat) (world : nat -> Env)
    (argp : list Prot.NetClient) (st : State) : option (State * list Cmd) :=
  remove_clients_from fuel world 0 argp st.

Definition net_enforcer_get_occupancy_svc (env : Env)
    (argp : Prot.NetGetOccupancyArgs) (st : State)
    : float * State * list Cmd :=
  getOccupancy env (Prot.s_dstAddr argp) (Prot.s_srcAddr argp) st.

(** The three requests a peer can send, and the states the server can be in
    after any number of them. *)
Inductive Request : Type :=
| UpdateClients (world : nat -> Env) (argp : list Prot.NetClientUpdate)
| RemoveClients (world : nat -> Env) (argp : list Prot.NetClient)
| GetOccupancy (env : Env) (argp : Prot.NetGetOccupancyArgs).

Definition serve (fuel : nat) (r : Request) (st : State) : option State :=
  match r with
  | UpdateClients world argp =>
      fst <$> net_enforcer_update_clients_svc fuel world argp st
  | RemoveClients world argp =>
      fst <$> net_enforcer_remove_clients_svc fuel world argp st
  | GetOccupancy env argp =>
      Some (snd (fst (net_enforcer_get_occupancy_svc env argp st)))
  end.

Inductive reachable : State -> Prop :=
| reachable_start : reachable initial_state
| reachable_serve fuel r st st' :
    reachable st -> serve fuel r st = Some st' -> reachable st'.

(** ** What the chain walk is expected to issue

    The commands of one level, written from the description of the walk:
    the class of level 0 sits on the per-priority base qdisc under the
    client's own minor, the class of a deeper level on the qdisc of the
    level above under minor 1; a level's ceiling is the entry after its
    rate when the chain has one. *)

Definition class_parent (id priority l : Z) : Z :=
  if l =? 0 then HTBBaseHandle priority else HTBHandle id priority (l - 1).

Definition level_class (id priority rateLimitLength : Z)
    (rateLimitRates rateLimitBursts : list float) (l : Z) : Cmd :=
  let rate := double_to_uint (index rateLimitRates (2 * l)) in
  let burst := double_to_uint (index rateLimitBursts (2 * l)) in
  AddHTBClass (class_parent id priority l)
              (if l =? 0 then u32 (id + 2) else 1)
              rate
              (if 2 * l + 1 <? rateLimitLength
               then double_to_uint (index rateLimitRates (2 * l + 1))
               else rate)
              burst
              (if 2 * l + 1 <? rateLimitLength
               then double_to_uint (index rateLimitBursts (2 * l + 1))
               else burst).

(** The qdisc a level below the first hangs under: installed when the old
    chain did not reach the level or the priority changed. *)
Definition level_qdisc (id priority oldPriority oldRateLimitLength l : Z)
    : list Cmd :=
  if (0 <? l)
     && ((oldRateLimitLength <=? 2 * l) || negb (oldPriority =? priority))
  then [AddHTBQdisc (class_parent id priority (l - 1))
                    (HTBMinor id (l - 1))
                    (HTBHandle id priority (l - 1))]
  else [].

Definition level_cmds (id priority rateLimitLength : Z)
    (rateLimitRates rateLimitBursts : list float)
    (oldPriority oldRateLimitLength l : Z) : list Cmd :=
  level_qdisc id priority oldPriority oldRateLimitLength l
  ++ [level_class id priority rateLimitLength rateLimitRates rateLimitBursts l].

(** The loop variables on entry to the pass for level [l]. *)
Definition walk_at (id priority l : Z) : Walk :=
  let k := Z.max 0 (l - 1) in
  mkWalk l (class_parent id priority k) (HTBMinor id k)
         (HTBHandle id priority k).

(** The levels [l], [l+1], ..., [l+n-1]. *)
Fixpoint levels_from (l : Z) (n : nat) : list Z :=
  match n with
  | O => []
  | S n' => l :: levels_from (l + 1) n'
  end.

(** Number of passes of the loop for a chain of the given length. *)
Definition stages (rateLimitLength : Z) : Z := (rateLimitLength + 1) / 2.

(** The id under which a call of [updateClient] for [addr] works: the id of
    the entry when there is one, the next free id otherwise. *)
Definition client_id (st : State) (addr : Z * Z) : Z :=
  match g_clients st !! addr with
  | Some c => id c
  | None => g_nextId st
  end.

Definition is_AddHTBClass (c : Cmd) : bool :=
  match c with AddHTBClass _ _ _ _ _ _ => true | _ => false end.

Definition is_ClassShow (c : Cmd) : bool :=
  match c with ClassShow _ => true | _ => false end.

(** What [reconcile] returns once the loop has enough fuel: the commands of
    the six steps, in order. *)
Definition reconcile_result (env : Env)
    (s_dstAddr s_srcAddr priority rateLimitLength : Z)
    (rateLimitRates rateLimitBursts : list float) (st : State)
    : Client * Z * list Cmd :=
  let '(c0, nextId, oldPriority, oldRateLimitLength, t0) :=
    snapshot env (s_dstAddr, s_srcAddr) st in
  let c1 :=
    set_policy c0 priority rateLimitLength
      (if 0 <? rateLimitLength then index rateLimitRates 0
       else uint_to_double g_maxRate) in
  let i := id c0 in
  let step := root_filter_step i priority oldPriority s_dstAddr s_srcAddr c1 in
  (fst step, nextId,
   t0
   ++ flat_map (level_cmds i priority rateLimitLength rateLimitRates
                           rateLimitBursts oldPriority oldRateLimitLength)
               (levels_from 0 (Z.to_nat (stages rateLimitLength)))
   ++ base_filter_step i priority rateLimitLength oldPriority
                       oldRateLimitLength s_dstAddr s_srcAddr
   ++ snd step
   ++ prune_step i priority oldPriority oldRateLimitLength
                 (walk_at i priority (stages rateLimitLength))
   ++ drop_step i priority rateLimitLength oldPriority oldRateLimitLength).

(** Commands that add or remove a filter on the root HTB qdisc. *)
Definition is_root_filter (c : Cmd) : bool :=
  match c with
  | RemoveFilter h _ | AddFilter h _ _ _ _ => h =? rootHTBHandle
  | _ => false
  end.

(** Commands that change the shape of the qdisc tree or its filters, as
    opposed to replacing the rates of a class or reading a counter. *)
Definition is_structural (c : Cmd) : bool :=
  match c with
  | AddHTBQdisc _ _ _ | AddFilter _ _ _ _ _ | RemoveFilter _ _
  | RemoveQdisc _ _ _ | RemoveClass _ _ => true
  | AddHTBClass _ _ _ _ _ _ | ClassShow _ => false
  end.

(** The longest chain the [UpdateClients] handler lets through, as the
    handler computes it. *)
Definition max_chain_length : Z := u32 (u32 (g_numLevels + 1) * 2).

(** Every stored chain length is within the handler's bound. *)
Definition chain_bounded (st : State) : Prop :=
  forall addr c, g_clients st !! addr = Some c ->
                 0 <= rateLimitLength c <= max_chain_length.

(** ** Sample inputs

    The shipped configuration is [g_maxRate = 125000000],
    [g_numPriorities = 7], [g_numLevels = 5]; the inputs below are used to
    run the model on it. *)

(** An outside world in which the clock stands at 0 and every byte counter
    reads 0. *)
Definition quiet_env : Env := mkEnv 0 (fun _ _ => 0).

Definition sample_rates : list float :=
  [1000000; 2000000; 3000000; 4000000]%float.
Definition sample_bursts : list float := [1500; 3000; 1; 2]%float.

(** A table holding one client, (1, 2), with id 0 at priority 2 and a chain
    of length 4, as a first update leaves it. *)
Definition sample_client : Client :=
  mkClient 0 2 4 1000000%float 0 0%float 0 0.
Definition sample_state : State := mkState {[ (1, 2) := sample_client ]} 1.

(** A client at priority 1 without rate limits. *)
Definition unlimited_client : Client :=
  mkClient 0 1 0 125000000%float 0 0%float 0 0.
Definition unlimited_state : State :=
  mkState {[ (1, 2) := unlimited_client ]} 1.

(** An update for (1, 2) at priority 0 with a single rate and no ceiling. *)
Definition odd_update : Prot.NetClientUpdate :=
  Prot.mkNetClientUpdate (Prot.mkNetClient 1 2) 0 [1000000%float]
                         [1500%float].
Definition odd_client : Client :=
  mkClient 0 0 1 1000000%float 0 0%float 0 0.
Definition odd_state : State := mkState {[ (1, 2) := odd_client ]} 1.

(** An update for (3, 4) at priority 1 without rate limits. *)
Definition plain_update : Prot.NetClientUpdate :=
  Prot.mkNetClientUpdate (Prot.mkNetClient 3 4) 1 [] [].

(** The table after an occupancy query for the unknown (1, 2), and after a
    following update for (3, 4). *)
Definition queried_state : State := mkState {[ (1, 2) := Client_zero ]} 0.
Definition clashing_state : State :=
  mkState (<[ (3, 4) := mkClient 0 1 0 125000000%float 0 0%float 0 0 ]>
             {[ (1, 2) := Client_zero ]}) 1.

(** ** The commands of a level, by kind of update

    [level_qdisc_cmd l] hangs the qdisc of level [l - 1] under the class of
    level [l - 1]; the class of level [l] then lives in that qdisc. *)

Definition level_qdisc_cmd (id priority l : Z) : Cmd :=
  AddHTBQdisc (class_parent id priority (l - 1)) (HTBMinor id (l - 1))
              (HTBHandle id priority (l - 1)).

(** A level built from nothing: its qdisc (below level 0) and its class. *)
Definition install_level (id priority rateLimitLength : Z)
    (rateLimitRates rateLimitBursts : list float) (l : Z) : list Cmd :=
  (if 0 <? l then [level_qdisc_cmd id priority l] else [])
  ++ [level_class id priority rateLimitLength rateLimitRates rateLimitBursts l].

(** A level of a chain that replaces one of length [oldRateLimitLength] at
    the same priority: the qdisc is added only where the old chain ended. *)
Definition extend_level (id priority rateLimitLength : Z)
    (rateLimitRates rateLimitBursts : list float)
    (oldRateLimitLength l : Z) : list Cmd :=
  (if (0 <? l) && (oldRateLimitLength <=? 2 * l)
   then [level_qdisc_cmd id priority l] else [])
  ++ [level_class id priority rateLimitLength rateLimitRates rateLimitBursts l].

(** The levels of a chain of the given length, top first. *)
Definition chain_levels (rateLimitLength : Z) : list Z :=
  levels_from 0 (Z.to_nat (stages rateLimitLength)).

(** The rate stored for occupancy accounting. *)
Definition first_rate (rateLimitLength : Z) (rateLimitRates : list float)
    : float :=
  if 0 <? rateLimitLength then index rateLimitRates 0
  else uint_to_double g_maxRate.

(** The commands that tear down what an earlier update installed for a
    client at [oldPriority] with a chain of [oldRateLimitLength]: the top
    qdisc of the chain, then the per-priority filter and the level-0
    class. *)
Definition teardown_cmds (id oldPriority oldRateLimitLength : Z) : list Cmd :=
  (if 2 <? oldRateLimitLength
   then [RemoveQdisc (HTBBaseHandle oldPriority) (HTBMinor id 0)
                     (HTBHandle id oldPriority 0)]
   else [])
  ++ (if 0 <? oldRateLimitLength
      then [RemoveFilter (HTBBaseHandle oldPriority) id;
            RemoveClass (HTBBaseHandle oldPriority) (HTBMinor id 0)]
      else []).

(** Ids in the table are below the id counter and no two entries share
    one. *)
Definition ids_fresh (st : State) : Prop :=
  (forall addr c, g_clients st !! addr = Some c -> 0 <= id c < g_nextId st)
  /\ (forall a1 a2 c1 c2,
        g_clients st !! a1 = Some c1 -> g_clients st !! a2 = Some c2 ->
        id c1 = id c2 -> a1 = a2).

(** Every stored priority is below [g_numPriorities]. *)
Definition priority_bounded (st : State) : Prop :=
  forall addr c, g_clients st !! addr = Some c -> priority c < g_numPriorities.

(** The number of ids a request can allocate, and whether an occupancy
    query names an address of the table. *)
Definition request_size (r : Request) : Z :=
  match r with
  | UpdateClients _ argp => Z.of_nat (length argp)
  | _ => 0
  end.

Definition query_known (r : Request) (st : State) : Prop :=
  match r with
  | GetOccupancy _ argp =>
      is_Some (g_clients st !! (Prot.s_dstAddr argp, Prot.s_srcAddr argp))
  | _ => True
  end.

(** The table without the listed addresses. *)
Definition remove_all (argp : list Prot.NetClient) (m : gmap (Z * Z) Client)
    : gmap (Z * Z) Client :=
  fold_left (fun m client =>
               delete (Prot.s_dstAddr client, Prot.s_srcAddr client) m)
            argp m.

(** ** Start-up: [initTC]

    The commands [initTC] builds with [snprintf] itself are recorded with
    the values it formats; its call of [addHTBQdisc] is a [Cmd]. *)

Inductive InitCmd : Type :=
| RemoveRoot
| AddRootQdisc (defaultMinor : Z)
| AddRootHelper (minor rate prio : Z)
| AddRootClass (parentMinor minor rate ceil prio : Z)
| AddDSMARKQdisc (parentMinor handle : Z)
| ChangeDSMARKClass (handle value : Z)
| Tc (c : Cmd).

(** [unsigned char value = (7 - priority) << 5]: the subtraction and the
    shift are done on [unsigned int], the result is cut to eight bits. *)
Definition dscp_value (priority : Z) : Z :=
  u32 (u32 (7 - priority) * 2 ^ 5) mod 2 ^ 8.

(** One pass of the loop over the priorities: the commands, and [rate] and
    [ceil] as the pass leaves them. *)
Definition initTC_priority (minRate priority rate ceil : Z)
    : list InitCmd * Z * Z :=
  let rate' := u32 (rate - minRate) in
  let ceil' := u32 (ceil - minRate) in
  ([AddRootClass (rootHTBMinorHelper priority) (rootHTBMinor priority)
                 minRate ceil priority;
    AddDSMARKQdisc (rootHTBMinor priority) (DSMARKHandle priority);
    ChangeDSMARKClass (DSMARKHandle priority) (dscp_value priority);
    Tc (AddHTBQdisc (DSMARKHandle priority) 1 (HTBBaseHandle priority));
    AddRootClass (rootHTBMinorHelper priority)
                 (rootHTBMinorHelper (u32 (priority + 1)))
                 rate' ceil' (u32 (priority + 1))],
   rate', ceil').

(** [n] passes of the loop, starting at [priority]. *)
Fixpoint initTC_loop (n : nat) (minRate priority rate ceil : Z)
    : list InitCmd :=
  match n with
  | O => []
  | S n' =>
      let '(t, rate', ceil') := initTC_priority minRate priority rate ceil in
      t ++ initTC_loop n' minRate (u32 (priority + 1)) rate' ceil'
  end.

(** [initTC].  The loop counts [priority] up from 0 while it is below
    [g_numPriorities], which makes [g_numPriorities] passes. *)
Definition initTC : list InitCmd :=
  let minRate := g_maxRate / 100 in
  let rate := u32 (minRate * u32 (g_numPriorities + 1)) in
  let ceil := g_maxRate in
  [RemoveRoot;
   AddRootQdisc rootHTBMinorDefault;
   AddRootHelper (rootHTBMinorHelper 0) g_maxRate 0]
  ++ initTC_loop (Z.to_nat g_numPriorities) minRate 0 rate ceil.


(** A rate-limited client at priority 0, and a table with it. *)
Definition top_client : Client :=
  mkClient 0 0 2 1000000%float 0 0%float 0 700.
Definition top_state : State := mkState {[ (1, 2) := top_client ]} 1.

(** [sample_state] after [plain_update]. *)
Definition two_clients_state : State :=
  mkState (<[ (3, 4) := mkClient 1 1 0 125000000%float 0 0%float 0 0 ]>
             {[ (1, 2) := sample_client ]}) 2.

(** * Properties *)

(** ** Machine arithmetic *)

(** Linear arithmetic with division and remainder by constants. *)
Ltac dlia := Z.div_mod_to_equations; lia.

Lemma u32_small x : 0 <= x < 2 ^ 32 -> u32 x = x.
Proof. intros H. unfold u32. apply Z.mod_small. exact H. Qed.

Lemma u32_range x : 0 <= u32 x < 2 ^ 32.
Proof. unfold u32. apply Z.mod_pos_bound. lia. Qed.

(** ** Handle allocator without wrap-around *)

Lemma rootHTBMinor_plain p :
  0 <= p -> p + 1 < 2 ^ 32 -> rootHTBMinor p = p + 1.
Proof. intros. unfold rootHTBMinor. apply u32_small. lia. Qed.

Lemma rootHTBMinorHelper_plain p :
  0 <= p <= g_numPriorities -> 2 * g_numPriorities + 1 < 2 ^ 32 ->
  rootHTBMinorHelper p = p + g_numPriorities + 1.
Proof.
  intros. unfold rootHTBMinorHelper.
  rewrite rootHTBMinor_plain by lia. rewrite u32_small; lia.
Qed.

Lemma rootHTBMinorDefault_plain :
  0 <= g_numPriorities -> 2 * g_numPriorities + 1 < 2 ^ 32 ->
  rootHTBMinorDefault = 2 * g_numPriorities + 1.
Proof.
  intros. unfold rootHTBMinorDefault.
  rewrite rootHTBMinorHelper_plain; lia.
Qed.

Lemma DSMARKHandle_plain p :
  0 <= p <= g_numPriorities -> 3 * g_numPriorities + 2 < 2 ^ 32 ->
  DSMARKHandle p = p + 2 * g_numPriorities + 2.
Proof.
  intros. unfold DSMARKHandle.
  rewrite rootHTBMinorDefault_plain by lia.
  rewrite (u32_small (p + _)) by lia. rewrite u32_small; lia.
Qed.

Lemma HTBBaseHandle_plain p :
  0 <= p <= g_numPriorities -> 4 * g_numPriorities + 2 < 2 ^ 32 ->
  HTBBaseHandle p = p + 3 * g_numPriorities + 2.
Proof.
  intros. unfold HTBBaseHandle.
  rewrite DSMARKHandle_plain by lia. rewrite u32_small; lia.
Qed.

Lemma HTBHandle_plain i p l :
  handles_fit i -> is_priority p -> is_level l ->
  HTBHandle i p l
  = i * g_numPriorities * g_numLevels + p * g_numLevels + l
    + 4 * g_numPriorities + 2.
Proof.
  intros [Hi Hfit] [Hp0 Hp] [Hl0 Hl]. unfold HTBHandle.
  assert (0 <= i * g_numPriorities) by nia.
  assert (i * g_numPriorities <= i * g_numPriorities * g_numLevels) by nia.
  assert (0 <= p * g_numLevels) by nia.
  assert (p * g_numLevels + l < g_numPriorities * g_numLevels) by nia.
  assert (0 < g_numPriorities * g_numLevels) by nia.
  rewrite HTBBaseHandle_plain by lia.
  rewrite (u32_small (i * _)) by lia.
  rewrite (u32_small (i * _ * _)) by lia.
  rewrite (u32_small (p * _)) by lia.
  rewrite (u32_small (_ + p * _)) by lia.
  rewrite (u32_small (_ + l)) by lia.
  rewrite u32_small; lia.
Qed.

(** Two numbers written in a mixed radix with the same digits ranges are
    equal only digit by digit. *)
Lemma radix_unique b q r q' r' :
  0 <= r < b -> 0 <= r' < b -> q * b + r = q' * b + r' -> q = q' /\ r = r'.
Proof. intros. assert (q = q') by nia. subst. lia. Qed.

Lemma HTBHandle_offset_inj i p l i' p' l' :
  is_priority p -> is_level l -> is_priority p' -> is_level l' ->
  i * g_numPriorities * g_numLevels + p * g_numLevels + l
  = i' * g_numPriorities * g_numLevels + p' * g_numLevels + l' ->
  i = i' /\ p = p' /\ l = l'.
Proof.
  intros Hp Hl Hp' Hl' E.
  destruct (radix_unique g_numLevels (i * g_numPriorities + p) l
              (i' * g_numPriorities + p') l' Hl Hl') as [E1 E2]; [lia |].
  destruct (radix_unique g_numPriorities i p i' p' Hp Hp' E1) as [E3 E4].
  auto.
Qed.

Lemma HTBHandle_offset_nonneg i p l :
  0 <= i -> is_priority p -> is_level l ->
  0 <= i * g_numPriorities * g_numLevels + p * g_numLevels + l.
Proof.
  intros Hi [Hp0 Hp] [Hl0 Hl].
  assert (0 <= i * g_numPriorities) by nia.
  assert (0 <= i * g_numPriorities * g_numLevels) by nia.
  assert (0 <= p * g_numLevels) by nia.
  lia.
Qed.

Lemma in_range_no_wrap_bounds a :
  in_range a -> no_wrap a ->
  0 <= g_numPriorities /\ 4 * g_numPriorities + 2 < 2 ^ 32.
Proof.
  destruct a as [p | p | | p | p | i p l]; simpl;
    unfold is_priority, is_level, handles_fit; intros; try lia.
  assert (0 <= i * g_numPriorities) by nia.
  assert (0 <= i * g_numPriorities * g_numLevels) by nia.
  assert (0 < g_numPriorities * g_numLevels) by nia.
  lia.
Qed.

(** C10 (amended): as long as no handle computation wraps around 2^32, the
    allocator never hands out the same number twice: over priorities below
    [g_numPriorities] and levels below [g_numLevels], two calls of
    [rootHTBMinor], [rootHTBMinorHelper], [rootHTBMinorDefault],
    [DSMARKHandle], [HTBBaseHandle] and [HTBHandle] that return the same
    value are the same call (same function, same id, priority and level);
    and [HTBMinor id 0] is [id + 2], differs from the reserved minor 1 and
    differs for different ids. *)
Theorem allocator_disjoint_without_wrap (a b : Allocation) (i i' : Z) :
  in_range a -> in_range b -> no_wrap a -> no_wrap b ->
  0 <= i -> i + 2 < 2 ^ 32 -> 0 <= i' -> i' + 2 < 2 ^ 32 ->
  (allocated a = allocated b -> a = b)
  /\ HTBMinor i 0 = i + 2
  /\ HTBMinor i 0 <> 1
  /\ (HTBMinor i 0 = HTBMinor i' 0 -> i = i').
Proof.
  intros Ra Rb Wa Wb Hi Hi2 Hi' Hi'2.
  pose proof (in_range_no_wrap_bounds a Ra Wa) as [HP HP4].
  split.
  - destruct a, b; simpl in *;
      unfold is_priority, is_level, handles_fit in *;
      repeat match goal with
             | H : _ /\ _ |- _ => destruct H
             end;
      rewrite ?rootHTBMinor_plain, ?rootHTBMinorHelper_plain,
        ?rootHTBMinorDefault_plain, ?DSMARKHandle_plain,
        ?HTBBaseHandle_plain, ?HTBHandle_plain
        by (unfold is_priority, is_level, handles_fit; lia);
      intros E; try (f_equal; lia);
      try (exfalso;
           match type of E with
           | context [?x * g_numPriorities * g_numLevels
                      + ?y * g_numLevels + ?z] =>
               pose proof (HTBHandle_offset_nonneg x y z);
               unfold is_priority, is_level in *; lia
           end).
    match goal with
    | |- AHTB ?x ?y ?z = AHTB ?x' ?y' ?z' =>
        destruct (HTBHandle_offset_inj x y z x' y' z') as (-> & -> & ->);
          unfold is_priority, is_level; auto; lia
    end.
  - unfold HTBMinor. simpl. rewrite !u32_small by lia. repeat split; lia.
Qed.

(** ** The chain walk *)

Section WalkFacts.

Variables (cid prio len : Z) (rates bursts : list float) (oldPrio oldLen : Z).

Local Abbreviation walk_body' := (walk_body cid prio len rates bursts oldPrio oldLen).
Local Abbreviation walk' := (walk cid prio len rates bursts oldPrio oldLen).
Local Abbreviation level_cmds' :=
  (level_cmds cid prio len rates bursts oldPrio oldLen).

Lemma class_parent_deeper l :
  l <> 0 -> class_parent cid prio l = HTBHandle cid prio (l - 1).
Proof. intros H. unfold class_parent. destruct (Z.eqb_spec l 0); easy. Qed.

Lemma HTBMinor_deeper l : l <> 0 -> HTBMinor cid l = 1.
Proof. intros H. unfold HTBMinor. destruct (Z.eqb_spec l 0); easy. Qed.

Lemma walk_body_at l :
  0 <= l -> 2 * l + 1 < 2 ^ 32 ->
  walk_body' (walk_at cid prio l) = (walk_at cid prio (l + 1), level_cmds' l).
Proof.
  intros Hl Hb. unfold walk_body, walk_at, level_cmds, level_qdisc, level_class.
  cbn [level parentHandle minor childHandle].
  rewrite (u32_small (l * 2)) by lia.
  rewrite (u32_small (l * 2 + 1)) by lia.
  rewrite (u32_small (l + 1)) by lia.
  replace (l * 2) with (2 * l) by lia.
  replace (Z.max 0 (l + 1 - 1)) with l by lia.
  destruct (Z.ltb_spec 0 l) as [Hpos | Hzero].
  - replace (Z.max 0 (l - 1)) with (l - 1) by lia.
    cbn [andb level parentHandle minor childHandle].
    rewrite (class_parent_deeper l), (HTBMinor_deeper l) by lia.
    assert ((l =? 0) = false) as -> by lia.
    destruct (2 * l + 1 <? len); reflexivity.
  - assert (l = 0) as -> by lia.
    change (Z.max 0 (0 - 1)) with 0.
    cbn [andb app level parentHandle minor childHandle].
    change (HTBMinor cid 0) with (u32 (cid + 2)).
    change (0 =? 0) with true. cbn iota.
    destruct (2 * 0 + 1 <? len); reflexivity.
Qed.

Lemma walk_run (fuel n : nat) : forall l,
  0 <= l -> l + Z.of_nat n = stages len -> 0 <= len <= 2 ^ 32 - 2 ->
  (n <= fuel)%nat ->
  walk' fuel (walk_at cid prio l)
  = Some (walk_at cid prio (stages len),
          flat_map level_cmds' (levels_from l n)).
Proof.
  unfold stages. revert fuel.
  induction n as [| n IH]; intros fuel l Hl Hn Hlen Hf.
  - assert (l = (len + 1) / 2) as El by lia. rewrite <- El.
    assert ((u32 (level (walk_at cid prio l) * 2) <? len) = false) as E.
    { cbn [walk_at level]. rewrite u32_small by dlia.
      apply Z.ltb_ge. dlia. }
    destruct fuel; cbn [walk levels_from flat_map]; rewrite E; reflexivity.
  - destruct fuel as [| fuel]; [lia |].
    assert ((u32 (level (walk_at cid prio l) * 2) <? len) = true) as E.
    { cbn [walk_at level]. rewrite u32_small by dlia.
      apply Z.ltb_lt. dlia. }
    cbn [walk levels_from flat_map]. rewrite E.
    rewrite walk_body_at by dlia.
    rewrite (IH fuel (l + 1)) by lia.
    reflexivity.
Qed.

(** With enough fuel the loop of [updateClient] ends, after one pass per
    level. *)
Lemma walk_total (fuel : nat) :
  0 <= len <= 2 ^ 32 - 2 -> (Z.to_nat (stages len) <= fuel)%nat ->
  walk' fuel (mkWalk 0 (HTBBaseHandle prio) (HTBMinor cid 0)
                     (HTBHandle cid prio 0))
  = Some (walk_at cid prio (stages len),
          flat_map level_cmds' (levels_from 0 (Z.to_nat (stages len)))).
Proof.
  intros Hlen Hf.
  assert (0 <= stages len) by (unfold stages; dlia).
  apply (walk_run fuel (Z.to_nat (stages len)) 0); lia.
Qed.

End WalkFacts.

(** ** Shape of one [updateClient] call *)

Lemma updateSentBytes_policy env c :
  id (fst (updateSentBytes env c)) = id c
  /\ priority (fst (updateSentBytes env c)) = priority c
  /\ rateLimitLength (fst (updateSentBytes env c)) = rateLimitLength c
  /\ rate (fst (updateSentBytes env c)) = rate c.
Proof.
  unfold updateSentBytes, getSentBytes.
  destruct (0 <? rateLimitLength c); cbn; auto.
Qed.

Lemma updateSentBytes_cmds env c :
  snd (updateSentBytes env c)
  = if 0 <? rateLimitLength c
    then [ClassShow (HTBBaseHandle (priority c))] else [].
Proof.
  unfold updateSentBytes, getSentBytes.
  destruct (0 <? rateLimitLength c); reflexivity.
Qed.

Lemma snapshot_new env addr st :
  g_clients st !! addr = None ->
  snapshot env addr st
  = (mkClient (g_nextId st) 0 0 0%float (u64 (GetTime env)) 0%float 0 0,
     u32 (g_nextId st + 1), g_numPriorities, 0, []).
Proof. intros H. unfold snapshot. rewrite H. reflexivity. Qed.

Lemma snapshot_known env addr st c :
  g_clients st !! addr = Some c ->
  snapshot env addr st
  = (fst (updateSentBytes env c), g_nextId st, priority c, rateLimitLength c,
     if 0 <? rateLimitLength c
     then [ClassShow (HTBBaseHandle (priority c))] else []).
Proof.
  intros H. unfold snapshot. rewrite H.
  pose proof (updateSentBytes_cmds env c) as Et.
  destruct (updateSentBytes_policy env c) as (_ & Ep & El & _).
  destruct (updateSentBytes env c) as [c' t]. cbn in *. congruence.
Qed.

Lemma snapshot_id env addr st :
  id (fst (fst (fst (fst (snapshot env addr st))))) = client_id st addr.
Proof.
  unfold client_id. destruct (g_clients st !! addr) as [c |] eqn:E.
  - rewrite (snapshot_known env addr st c E). cbn.
    apply updateSentBytes_policy.
  - rewrite (snapshot_new env addr st E). reflexivity.
Qed.

Lemma reconcile_total fuel env dst src p len rates bursts st :
  0 <= len <= 2 ^ 32 - 2 -> (Z.to_nat (stages len) <= fuel)%nat ->
  reconcile fuel env dst src p len rates bursts st
  = Some (reconcile_result env dst src p len rates bursts st).
Proof.
  intros Hlen Hf. unfold reconcile, reconcile_result.
  destruct (snapshot env (dst, src) st) as [[[[c0 nextId] oldP] oldLen] t0].
  cbn [id set_policy].
  rewrite walk_total by assumption.
  destruct (root_filter_step _ _ _ _ _ _) as [c2 t3]. reflexivity.
Qed.

(** Whatever the fuel, a result of [reconcile] carries the requested
    priority and chain length and the id the call worked under. *)
Lemma reconcile_policy fuel env dst src p len rates bursts st c nextId t :
  reconcile fuel env dst src p len rates bursts st = Some (c, nextId, t) ->
  priority c = p /\ rateLimitLength c = len
  /\ id c = client_id st (dst, src)
  /\ rate c = (if 0 <? len then index rates 0 else uint_to_double g_maxRate).
Proof.
  unfold reconcile. rewrite <- (snapshot_id env (dst, src) st).
  destruct (snapshot env (dst, src) st) as [[[[c0 nextId0] oldP] oldLen] t0].
  cbn [fst id set_policy].
  destruct (walk _ _ _ _ _ _ _ _ _) as [[w t1] |]; [| discriminate].
  unfold root_filter_step.
  destruct (negb (oldP =? p)); intros [= <- <- <-]; cbn; auto.
Qed.

Lemma updateClient_total fuel env dst src p len rates bursts st :
  0 <= len <= 2 ^ 32 - 2 -> (Z.to_nat (stages len) <= fuel)%nat ->
  p <> g_numPriorities \/ is_Some (g_clients st !! (dst, src)) ->
  updateClient fuel env dst src p len rates bursts st
  = let '(c, nextId, t) := reconcile_result env dst src p len rates bursts st in
    Some (mkState (if p =? g_numPriorities
                   then delete (dst, src) (g_clients st)
                   else <[(dst, src) := c]> (g_clients st))
                  nextId, t).
Proof.
  intros Hlen Hf Hgate. unfold updateClient.
  assert (bool_decide (g_clients st !! (dst, src) = None)
          && (p =? g_numPriorities) = false) as ->.
  { destruct Hgate as [Hp | [c Hc]].
    - apply andb_false_intro2. lia.
    - apply andb_false_intro1. rewrite Hc. reflexivity. }
  rewrite reconcile_total by assumption.
  destruct (reconcile_result _ _ _ _ _ _ _ _) as [[c nextId] t]. reflexivity.
Qed.

(** ** Which commands each step can issue *)

Lemma levels_from_length l n : length (levels_from l n) = n.
Proof. revert l. induction n; intros; cbn; auto. Qed.

Lemma levels_from_bounds n : forall l x,
  In x (levels_from l n) -> l <= x < l + Z.of_nat n.
Proof.
  induction n as [| n IH]; intros l x; cbn [levels_from In]; [easy |].
  intros [<- | H]; [lia |]. apply IH in H. lia.
Qed.

Section StepFacts.

Variables (cid prio len : Z) (rates bursts : list float) (oldPrio oldLen : Z).

Local Abbreviation level_cmds' :=
  (level_cmds cid prio len rates bursts oldPrio oldLen).
Local Abbreviation level_class' := (level_class cid prio len rates bursts).

Lemma classes_of_walk ls :
  List.filter is_AddHTBClass (flat_map level_cmds' ls) = map level_class' ls.
Proof.
  induction ls as [| l ls IH]; [reflexivity |].
  cbn [flat_map map]. rewrite List.filter_app, IH.
  unfold level_cmds, level_qdisc.
  destruct (_ && _); reflexivity.
Qed.

Lemma classes_of_base_filter dst src :
  List.filter is_AddHTBClass
    (base_filter_step cid prio len oldPrio oldLen dst src) = [].
Proof. unfold base_filter_step. destruct (_ && _); reflexivity. Qed.

Lemma classes_of_root_filter dst src c :
  List.filter is_AddHTBClass
    (snd (root_filter_step cid prio oldPrio dst src c)) = [].
Proof.
  unfold root_filter_step.
  destruct (negb (oldPrio =? prio)), (oldPrio <? g_numPriorities),
    (prio <? g_numPriorities); reflexivity.
Qed.

Lemma classes_of_prune w :
  List.filter is_AddHTBClass (prune_step cid prio oldPrio oldLen w) = [].
Proof.
  unfold prune_step.
  destruct (2 <? oldLen), (negb (oldPrio =? prio)),
    (u32 (level w * 2) <? oldLen); reflexivity.
Qed.

Lemma classes_of_drop :
  List.filter is_AddHTBClass (drop_step cid prio len oldPrio oldLen) = [].
Proof. unfold drop_step. destruct (_ && _); reflexivity. Qed.

End StepFacts.

Lemma classes_of_snapshot env addr st :
  List.filter is_AddHTBClass (snd (snapshot env addr st)) = [].
Proof.
  destruct (g_clients st !! addr) as [c |] eqn:E.
  - rewrite (snapshot_known env addr st c E). cbn [snd].
    destruct (0 <? _); reflexivity.
  - rewrite (snapshot_new env addr st E). reflexivity.
Qed.

Lemma classes_of_reconcile env dst src p len rates bursts st :
  List.filter is_AddHTBClass
    (snd (reconcile_result env dst src p len rates bursts st))
  = map (level_class (client_id st (dst, src)) p len rates bursts)
        (levels_from 0 (Z.to_nat (stages len))).
Proof.
  unfold reconcile_result.
  pose proof (classes_of_snapshot env (dst, src) st) as E0.
  rewrite <- (snapshot_id env (dst, src) st).
  destruct (snapshot env (dst, src) st) as [[[[c0 nextId] oldP] oldLen] t0].
  cbn [fst snd] in *.
  rewrite !List.filter_app, E0, classes_of_walk, classes_of_base_filter,
    classes_of_root_filter, classes_of_prune, classes_of_drop.
  cbn [app]. apply app_nil_r.
Qed.

(** C1: a call of [updateClient] with a priority below [g_numPriorities]
    and a chain of even length issues exactly one [addHTBClass] per level
    [l] below half the length, in order, so a chain of length
    [(g_numLevels + 1) * 2] installs [g_numLevels + 1] levels.  The class
    of level [l] is [level_class l]: rate and burst are entry [2l] of the
    two arrays, ceil and cburst entry [2l+1] when the chain has it and the
    rate and burst otherwise; level 0 sits on [HTBBaseHandle priority] under
    minor [id + 2], a deeper level on the qdisc of the level above under
    minor 1. *)
Theorem updateClient_one_class_per_level
    fuel env dst src p len rates bursts st :
  p < g_numPriorities ->
  0 <= len < 2 ^ 32 -> Z.even len = true ->
  (Z.to_nat (len / 2) <= fuel)%nat ->
  exists st' t,
    updateClient fuel env dst src p len rates bursts st = Some (st', t)
    /\ List.filter is_AddHTBClass t
       = map (level_class (client_id st (dst, src)) p len rates bursts)
             (levels_from 0 (Z.to_nat (len / 2)))
    /\ length (List.filter is_AddHTBClass t) = Z.to_nat (len / 2)
    /\ (len = (g_numLevels + 1) * 2 ->
        length (List.filter is_AddHTBClass t) = Z.to_nat (g_numLevels + 1)).
Proof.
  intros Hp Hlen Heven Hf.
  apply Z.even_spec in Heven. destruct Heven as [k ->].
  assert (stages (2 * k) = 2 * k / 2) as Es by (unfold stages; dlia).
  rewrite updateClient_total by (rewrite ?Es; first [lia | auto]).
  pose proof (classes_of_reconcile env dst src p (2 * k) rates bursts st) as E.
  destruct (reconcile_result _ _ _ _ _ _ _ _) as [[c nextId] t].
  cbn [snd] in E. rewrite Es in E.
  eexists _, _. split; [reflexivity |]. split; [exact E |].
  rewrite E, length_map, levels_from_length.
  split; [reflexivity |]. intros ->. f_equal. dlia.
Qed.

(** C9: for an address with no entry in the table, [updateClient] with
    priority [g_numPriorities] does nothing: no command is issued and the
    state, table and id counter alike, is returned as it was. *)
Theorem updateClient_delete_unknown_is_noop
    fuel env dst src len rates bursts st :
  g_clients st !! (dst, src) = None ->
  updateClient fuel env dst src g_numPriorities len rates bursts st
  = Some (st, []).
Proof.
  intros H. unfold updateClient. rewrite H, Z.eqb_refl. reflexivity.
Qed.

(** C3: a [RemoveClients] item for a client in the table with a priority
    [p] below [g_numPriorities] and chain length [n] is handled by
    [updateClient] with priority [g_numPriorities] and an empty chain.  That
    call removes the client's root filter, removes the qdisc chain rooted at
    [HTBHandle id p 0] under [HTBBaseHandle p] when [n > 2], removes the
    per-priority filter and the level-0 class on [HTBBaseHandle p] when
    [n > 0], and erases the entry, so that the address is no longer in the
    table. *)
Theorem remove_clients_tears_down fuel world dst src c st :
  g_clients st !! (dst, src) = Some c ->
  priority c < g_numPriorities ->
  let p := priority c in
  let n := rateLimitLength c in
  let i := id c in
  let st' := mkState (delete (dst, src) (g_clients st)) (g_nextId st) in
  let t :=
    (if 0 <? n then [ClassShow (HTBBaseHandle p)] else [])
    ++ [RemoveFilter rootHTBHandle i]
    ++ (if 2 <? n
        then [RemoveQdisc (HTBBaseHandle p) (HTBMinor i 0) (HTBHandle i p 0)]
        else [])
    ++ (if 0 <? n
        then [RemoveFilter (HTBBaseHandle p) i;
              RemoveClass (HTBBaseHandle p) (HTBMinor i 0)]
        else []) in
  updateClient fuel (world 0%nat) dst src g_numPriorities 0 [] [] st
  = Some (st', t)
  /\ net_enforcer_remove_clients_svc fuel world [Prot.mkNetClient dst src] st
     = Some (st', t)
  /\ g_clients st' !! (dst, src) = None.
Proof.
  intros Hc Hp p n i st' t.
  assert (updateClient fuel (world 0%nat) dst src g_numPriorities 0 [] [] st
          = Some (st', t)) as E.
  { rewrite updateClient_total;
      [| lia | change (stages 0) with 0; lia | right; eauto].
    unfold reconcile_result. rewrite (snapshot_known _ _ _ c Hc).
    destruct (updateSentBytes_policy (world 0%nat) c) as (Ei & _).
    rewrite Ei, Z.eqb_refl.
    unfold root_filter_step, base_filter_step, prune_step, drop_step.
    fold p n i.
    assert ((p =? g_numPriorities) = false) as -> by lia.
    assert ((p <? g_numPriorities) = true) as -> by lia.
    rewrite (Z.ltb_irrefl g_numPriorities).
    cbn [negb orb andb fst snd stages flat_map].
    change (Z.to_nat (stages 0)) with 0%nat.
    cbn [levels_from flat_map app Z.ltb Z.compare Z.eqb orb].
    subst st' t. do 2 f_equal.
    destruct (2 <? n), (0 <? n); reflexivity. }
  split; [exact E |]. split.
  - unfold net_enforcer_remove_clients_svc. cbn [remove_clients_from].
    cbn [Prot.s_dstAddr Prot.s_srcAddr]. rewrite E. rewrite app_nil_r.
    reflexivity.
  - apply lookup_delete_eq.
Qed.

(** ** A repeated update *)

Lemma walk_unchanged_policy cid prio len rates bursts :
  0 <= len ->
  flat_map (level_cmds cid prio len rates bursts prio len)
           (levels_from 0 (Z.to_nat (stages len)))
  = map (level_class cid prio len rates bursts)
        (levels_from 0 (Z.to_nat (stages len))).
Proof.
  intros Hlen.
  assert (forall ls, (forall l, In l ls -> 2 * l < len) ->
            flat_map (level_cmds cid prio len rates bursts prio len) ls
            = map (level_class cid prio len rates bursts) ls) as Hmap.
  { induction ls as [| l ls IH]; intros Hls; [reflexivity |].
    cbn [flat_map map]. rewrite IH by (intros; apply Hls; now right).
    unfold level_cmds, level_qdisc.
    assert (2 * l < len) by (apply Hls; now left).
    assert ((len <=? 2 * l) = false) as -> by lia.
    rewrite Z.eqb_refl, andb_false_r. reflexivity. }
  apply Hmap. intros l Hl. apply levels_from_bounds in Hl.
  unfold stages in Hl. dlia.
Qed.

Lemma prune_unchanged_policy cid prio len :
  0 <= len <= 2 ^ 32 - 2 ->
  prune_step cid prio prio len (walk_at cid prio (stages len)) = [].
Proof.
  intros Hlen. unfold prune_step, walk_at. cbn [level].
  rewrite Z.eqb_refl. cbn [negb].
  rewrite u32_small by (unfold stages; dlia).
  assert ((stages len * 2 <? len) = false) as ->
    by (apply Z.ltb_ge; unfold stages; dlia).
  destruct (2 <? len); reflexivity.
Qed.

Lemma structural_of_classes cid prio len rates bursts ls :
  List.filter is_structural
    (map (level_class cid prio len rates bursts) ls) = [].
Proof. induction ls; [reflexivity | exact IHls]. Qed.

(** C4: when [updateClient] is called twice in a row with the same address,
    the same priority below [g_numPriorities] and the same chain, the second
    call reads the byte counter (when the chain is not empty) and replaces
    the class of every level; it issues no [addHTBQdisc], no filter
    addition or removal, no [removeQdisc] and no [removeClass], and the
    client's priority, chain length and rate are what the first call left. *)
Theorem updateClient_twice_only_replaces_classes
    fuel env env' dst src p len rates bursts st :
  p < g_numPriorities ->
  0 <= len <= 2 ^ 32 - 2 -> (Z.to_nat (stages len) <= fuel)%nat ->
  exists st1 t1 st2 t2 c1 c2,
    updateClient fuel env dst src p len rates bursts st = Some (st1, t1)
    /\ updateClient fuel env' dst src p len rates bursts st1 = Some (st2, t2)
    /\ g_clients st1 !! (dst, src) = Some c1
    /\ g_clients st2 !! (dst, src) = Some c2
    /\ priority c2 = priority c1
    /\ rateLimitLength c2 = rateLimitLength c1
    /\ rate c2 = rate c1
    /\ t2 = (if 0 <? len then [ClassShow (HTBBaseHandle p)] else [])
            ++ map (level_class (id c1) p len rates bursts)
                   (levels_from 0 (Z.to_nat (stages len)))
    /\ List.filter is_structural t2 = [].
Proof.
  intros Hp Hlen Hf.
  assert ((p =? g_numPriorities) = false) as Hne by lia.
  assert (p <> g_numPriorities) as Hgate by lia.
  (* first call *)
  pose proof (reconcile_total fuel env dst src p len rates bursts st Hlen Hf)
    as R1.
  pose proof (updateClient_total fuel env dst src p len rates bursts st
                Hlen Hf (or_introl Hgate)) as U1.
  destruct (reconcile_result env dst src p len rates bursts st)
    as [[c1 n1] t1].
  apply reconcile_policy in R1. destruct R1 as (Ep1 & El1 & _ & Er1).
  rewrite Hne in U1.
  set (st1 := mkState (<[(dst, src) := c1]> (g_clients st)) n1) in *.
  assert (g_clients st1 !! (dst, src) = Some c1) as L1
    by apply lookup_insert_eq.
  (* second call *)
  pose proof (reconcile_total fuel env' dst src p len rates bursts st1 Hlen Hf)
    as R2.
  pose proof (updateClient_total fuel env' dst src p len rates bursts st1
                Hlen Hf (or_introl Hgate)) as U2.
  assert (snd (reconcile_result env' dst src p len rates bursts st1)
          = (if 0 <? len then [ClassShow (HTBBaseHandle p)] else [])
            ++ map (level_class (id c1) p len rates bursts)
                   (levels_from 0 (Z.to_nat (stages len)))) as T2.
  { unfold reconcile_result. rewrite (snapshot_known _ _ _ c1 L1).
    destruct (updateSentBytes_policy env' c1) as (Ei & _).
    rewrite Ei, Ep1, El1. cbn [snd].
    rewrite walk_unchanged_policy, prune_unchanged_policy by lia.
    unfold base_filter_step, root_filter_step, drop_step.
    rewrite Z.eqb_refl. cbn [negb orb snd].
    destruct (Z.ltb_spec 0 len) as [Hpos | Hzero].
    - assert ((len =? 0) = false) as -> by lia.
      cbn [andb orb app]. rewrite !app_nil_r. reflexivity.
    - cbn [andb app]. rewrite !app_nil_r. reflexivity. }
  destruct (reconcile_result env' dst src p len rates bursts st1)
    as [[c2 n2] t2].
  apply reconcile_policy in R2. destruct R2 as (Ep2 & El2 & _ & Er2).
  rewrite Hne in U2. cbn [snd] in T2.
  exists st1, t1, (mkState (<[(dst, src) := c2]> (g_clients st1)) n2),
    t2, c1, c2.
  split; [exact U1 |]. split; [exact U2 |]. split; [exact L1 |].
  split; [apply lookup_insert_eq |].
  split; [congruence |]. split; [congruence |]. split; [congruence |].
  split; [exact T2 |].
  rewrite T2, List.filter_app, structural_of_classes.
  destruct (0 <? len); reflexivity.
Qed.

(** ** The root filter *)

Lemma HTBBaseHandle_not_root p :
  0 <= p <= g_numPriorities -> 4 * g_numPriorities + 2 < 2 ^ 32 ->
  (HTBBaseHandle p =? rootHTBHandle) = false.
Proof.
  intros Hp HP. rewrite HTBBaseHandle_plain by assumption.
  unfold rootHTBHandle. lia.
Qed.

Lemma root_filters_of_walk cid prio len rates bursts oldPrio oldLen ls :
  List.filter is_root_filter
    (flat_map (level_cmds cid prio len rates bursts oldPrio oldLen) ls) = [].
Proof.
  induction ls as [| l ls IH]; [reflexivity |].
  cbn [flat_map]. rewrite List.filter_app, IH.
  unfold level_cmds, level_qdisc. destruct (_ && _); reflexivity.
Qed.

Lemma root_filters_of_prune cid prio oldPrio oldLen w :
  List.filter is_root_filter (prune_step cid prio oldPrio oldLen w) = [].
Proof.
  unfold prune_step.
  destruct (2 <? oldLen), (negb (oldPrio =? prio)),
    (u32 (level w * 2) <? oldLen); reflexivity.
Qed.

Lemma root_filters_of_base_filter cid prio len oldPrio oldLen dst src :
  (HTBBaseHandle prio =? rootHTBHandle) = false ->
  List.filter is_root_filter
    (base_filter_step cid prio len oldPrio oldLen dst src) = [].
Proof.
  intros H. unfold base_filter_step.
  destruct (_ && _); cbn; rewrite ?H; reflexivity.
Qed.

Lemma root_filters_of_drop cid prio len oldPrio oldLen :
  (HTBBaseHandle oldPrio =? rootHTBHandle) = false ->
  List.filter is_root_filter (drop_step cid prio len oldPrio oldLen) = [].
Proof.
  intros H. unfold drop_step.
  destruct (_ && _); cbn; rewrite ?H; reflexivity.
Qed.

Lemma root_filters_of_root_filter cid prio oldPrio dst src c :
  List.filter is_root_filter
    (snd (root_filter_step cid prio oldPrio dst src c))
  = snd (root_filter_step cid prio oldPrio dst src c).
Proof.
  unfold root_filter_step.
  destruct (negb (oldPrio =? prio)), (oldPrio <? g_numPriorities),
    (prio <? g_numPriorities); reflexivity.
Qed.

(** C2: [updateClient] on a client already in the table, with priorities
    and a configuration whose base handles fit in 32 bits.  When the new
    priority differs from the old one, [prevSentBytes] is set to 0 and the
    commands on the root HTB are: the removal of the filter with prio
    [id + 1] exactly when the old priority is below [g_numPriorities],
    followed by the addition of the filter sending (dst, src) to
    [rootHTBMinor] of the new priority exactly when the new priority is below
    [g_numPriorities].  When the priority is unchanged there is no command on
    the root filters and [prevSentBytes] is what the counter update left. *)
Theorem updateClient_root_filter_follows_priority
    fuel env dst src p len rates bursts st c :
  g_clients st !! (dst, src) = Some c ->
  4 * g_numPriorities + 2 < 2 ^ 32 ->
  0 <= priority c <= g_numPriorities -> 0 <= p <= g_numPriorities ->
  0 <= len <= 2 ^ 32 - 2 -> (Z.to_nat (stages len) <= fuel)%nat ->
  exists c' t,
    reconcile fuel env dst src p len rates bursts st
    = Some (c', g_nextId st, t)
    /\ updateClient fuel env dst src p len rates bursts st
       = Some (mkState (if p =? g_numPriorities
                        then delete (dst, src) (g_clients st)
                        else <[(dst, src) := c']> (g_clients st))
                       (g_nextId st), t)
    /\ (priority c <> p ->
        prevSentBytes c' = 0
        /\ List.filter is_root_filter t
           = (if priority c <? g_numPriorities
              then [RemoveFilter rootHTBHandle (id c)] else [])
             ++ (if p <? g_numPriorities
                 then [AddFilter rootHTBHandle (id c) dst src (rootHTBMinor p)]
                 else []))
    /\ (priority c = p ->
        prevSentBytes c' = prevSentBytes (fst (updateSentBytes env c))
        /\ List.filter is_root_filter t = []).
Proof.
  intros Hc HP Hold Hnew Hlen Hf.
  pose proof (HTBBaseHandle_not_root _ Hold HP) as Bold.
  pose proof (HTBBaseHandle_not_root _ Hnew HP) as Bnew.
  rewrite reconcile_total, updateClient_total by eauto.
  unfold reconcile_result. rewrite (snapshot_known _ _ _ c Hc).
  destruct (updateSentBytes_policy env c) as (Ei & _). rewrite Ei.
  set (c1 := set_policy _ _ _ _).
  eexists _, _. split; [reflexivity |]. split; [reflexivity |].
  rewrite !List.filter_app, root_filters_of_walk, root_filters_of_prune,
    root_filters_of_base_filter, root_filters_of_drop,
    root_filters_of_root_filter by assumption.
  assert (List.filter is_root_filter
            (if 0 <? rateLimitLength c
             then [ClassShow (HTBBaseHandle (priority c))] else []) = [])
    as -> by (destruct (0 <? rateLimitLength c); reflexivity).
  cbn [app]. rewrite app_nil_r.
  unfold root_filter_step. split; intros Hprio.
  - assert ((priority c =? p) = false) as -> by lia. cbn [negb fst snd].
    split; reflexivity.
  - assert ((priority c =? p) = true) as -> by lia. cbn [negb fst snd].
    split; reflexivity.
Qed.

(** ** Chain lengths stored through the RPC surface *)

Lemma max_chain_length_plain :
  0 <= g_numLevels -> (g_numLevels + 1) * 2 < 2 ^ 32 ->
  max_chain_length = (g_numLevels + 1) * 2.
Proof.
  intros. unfold max_chain_length. rewrite (u32_small (_ + 1)) by lia.
  apply u32_small. lia.
Qed.

Lemma chain_bounded_start : chain_bounded initial_state.
Proof. intros addr c H. cbn in H. rewrite lookup_empty in H. discriminate. Qed.

Lemma chain_bounded_insert st addr c n :
  chain_bounded st -> 0 <= rateLimitLength c <= max_chain_length ->
  chain_bounded (mkState (<[addr := c]> (g_clients st)) n).
Proof.
  intros Hst Hc addr' c'. cbn [g_clients].
  rewrite lookup_insert. case_decide.
  - intros [= <-]. exact Hc.
  - apply Hst.
Qed.

Lemma chain_bounded_delete st addr n :
  chain_bounded st -> chain_bounded (mkState (delete addr (g_clients st)) n).
Proof.
  intros Hst addr' c'. cbn [g_clients].
  rewrite lookup_delete. case_decide; [discriminate | apply Hst].
Qed.

Lemma updateClient_chain_bounded fuel env dst src p len rates bursts st st' t :
  chain_bounded st -> 0 <= len <= max_chain_length ->
  updateClient fuel env dst src p len rates bursts st = Some (st', t) ->
  chain_bounded st'.
Proof.
  intros Hst Hlen. unfold updateClient.
  destruct (_ && _); [intros [= <- _]; exact Hst |].
  destruct (reconcile _ _ _ _ _ _ _ _ _) as [[[c nextId] t'] |] eqn:R;
    [| discriminate].
  apply reconcile_policy in R. destruct R as (_ & El & _).
  intros [= <- _]. destruct (p =? g_numPriorities).
  - apply chain_bounded_delete, Hst.
  - apply chain_bounded_insert; [exact Hst | lia].
Qed.

Lemma getOccupancy_chain_bounded env dst src st :
  chain_bounded st -> chain_bounded (snd (fst (getOccupancy env dst src st))).
Proof.
  intros Hst.
  pose proof (u32_range (u32 (g_numLevels + 1) * 2)) as Hmax.
  fold max_chain_length in Hmax.
  unfold getOccupancy, subscript.
  destruct (g_clients st !! (dst, src)) as [c |] eqn:E.
  - destruct (negb (priority c =? 0)).
    + destruct (updateSentBytes_policy env c) as (_ & _ & El & _).
      destruct (updateSentBytes env c) as [c1 t]. cbn [fst snd] in *.
      apply chain_bounded_insert; [exact Hst |].
      cbn [set_counters rateLimitLength]. rewrite El. eapply Hst, E.
    + cbn [fst snd]. destruct st. exact Hst.
  - cbn [Client_zero priority Z.eqb negb fst snd].
    apply chain_bounded_insert; [exact Hst | cbn; lia].
Qed.

Lemma update_clients_chain_bounded fuel world args : forall i st st' t,
  chain_bounded st ->
  update_clients_from fuel world i args st = Some (st', t) ->
  chain_bounded st'.
Proof.
  induction args as [| a args IH]; intros i st st' t Hst;
    cbn [update_clients_from].
  - intros [= <- _]. exact Hst.
  - destruct (g_numPriorities <=? _); [apply IH, Hst |].
    destruct (Z.ltb_spec (u32 (u32 (g_numLevels + 1) * 2))
                (Z.of_nat (length (Prot.rateLimitRates a)))) as [Hl | Hl];
      [apply IH, Hst |].
    destruct (updateClient _ _ _ _ _ _ _ _ _) as [[st1 t1] |] eqn:U;
      [| discriminate].
    apply updateClient_chain_bounded in U;
      [| exact Hst | unfold max_chain_length; lia].
    destruct (update_clients_from _ _ _ _ st1) as [[st2 t2] |] eqn:R;
      [| discriminate].
    intros [= <- _]. eapply IH; eassumption.
Qed.

Lemma remove_clients_chain_bounded fuel world args : forall i st st' t,
  chain_bounded st ->
  remove_clients_from fuel world i args st = Some (st', t) ->
  chain_bounded st'.
Proof.
  induction args as [| a args IH]; intros i st st' t Hst;
    cbn [remove_clients_from].
  - intros [= <- _]. exact Hst.
  - destruct (updateClient _ _ _ _ _ _ _ _ _) as [[st1 t1] |] eqn:U;
      [| discriminate].
    apply updateClient_chain_bounded in U;
      [| exact Hst | pose proof (u32_range (u32 (g_numLevels + 1) * 2));
                     unfold max_chain_length; lia].
    destruct (remove_clients_from _ _ _ _ st1) as [[st2 t2] |] eqn:R;
      [| discriminate].
    intros [= <- _]. eapply IH; eassumption.
Qed.

Lemma reachable_chain_bounded st : reachable st -> chain_bounded st.
Proof.
  induction 1 as [| fuel r st st' _ IH Hserve]; [apply chain_bounded_start |].
  destruct r as [world argp | world argp | env argp]; cbn [serve] in Hserve.
  - unfold net_enforcer_update_clients_svc in Hserve.
    destruct (update_clients_from _ _ _ _ _) as [[s t] |] eqn:U;
      [| discriminate].
    injection Hserve as <-. eapply update_clients_chain_bounded; eassumption.
  - unfold net_enforcer_remove_clients_svc in Hserve.
    destruct (remove_clients_from _ _ _ _ _) as [[s t] |] eqn:U;
      [| discriminate].
    injection Hserve as <-. eapply remove_clients_chain_bounded; eassumption.
  - injection Hserve as <-. apply getOccupancy_chain_bounded, IH.
Qed.

(** ** Every request is served *)

Lemma max_chain_length_range : 0 <= max_chain_length <= 2 ^ 32 - 2.
Proof. unfold max_chain_length, u32. dlia. Qed.

Lemma stages_mono a b : 0 <= a <= b -> stages a <= stages b.
Proof. unfold stages. intros. dlia. Qed.

Lemma updateClient_returns fuel env dst src p len rates bursts st :
  0 <= len <= max_chain_length ->
  (Z.to_nat (stages max_chain_length) <= fuel)%nat ->
  is_Some (updateClient fuel env dst src p len rates bursts st).
Proof.
  intros Hlen Hf. pose proof max_chain_length_range as Hmax.
  pose proof (stages_mono len max_chain_length Hlen) as Hs.
  unfold updateClient. destruct (_ && _); [eauto |].
  rewrite reconcile_total by lia.
  destruct (reconcile_result _ _ _ _ _ _ _ _) as [[c nextId] t]. eauto.
Qed.

Lemma update_clients_returns fuel world args : forall i st,
  (Z.to_nat (stages max_chain_length) <= fuel)%nat ->
  is_Some (update_clients_from fuel world i args st).
Proof.
  induction args as [| a args IH]; intros i st Hf;
    cbn [update_clients_from]; [eauto |].
  destruct (g_numPriorities <=? _); [apply IH, Hf |].
  destruct (Z.ltb_spec (u32 (u32 (g_numLevels + 1) * 2))
              (Z.of_nat (length (Prot.rateLimitRates a)))) as [Hl | Hl];
    [apply IH, Hf |].
  destruct (updateClient_returns fuel (world i)
              (Prot.s_dstAddr (Prot.client a)) (Prot.s_srcAddr (Prot.client a))
              (Prot.priority a) (Z.of_nat (length (Prot.rateLimitRates a)))
              (Prot.rateLimitRates a) (Prot.rateLimitBursts a) st)
    as [[st1 t1] ->]; [unfold max_chain_length; lia | exact Hf |].
  destruct (IH (S i) st1 Hf) as [[st2 t2] ->]. eauto.
Qed.

Lemma remove_clients_returns fuel world args : forall i st,
  is_Some (remove_clients_from fuel world i args st).
Proof.
  induction args as [| a args IH]; intros i st;
    cbn [remove_clients_from]; [eauto |].
  assert (is_Some (updateClient fuel (world i) (Prot.s_dstAddr a)
                     (Prot.s_srcAddr a) g_numPriorities 0 [] [] st))
    as [[st1 t1] ->].
  { unfold updateClient. destruct (_ && _); [eauto |].
    rewrite reconcile_total by (change (stages 0) with 0; lia).
    destruct (reconcile_result _ _ _ _ _ _ _ _) as [[c nextId] t]. eauto. }
  destruct (IH (S i) st1) as [[st2 t2] ->]. eauto.
Qed.

(** With fuel for the longest chain the handlers accept, every request
    brings the server to a next state. *)
Lemma serve_returns fuel r st :
  (Z.to_nat (stages max_chain_length) <= fuel)%nat ->
  is_Some (serve fuel r st).
Proof.
  intros Hf. destruct r as [world argp | world argp | env argp]; cbn [serve].
  - unfold net_enforcer_update_clients_svc.
    destruct (update_clients_returns fuel world argp 0%nat st Hf) as [x ->].
    cbn. eauto.
  - unfold net_enforcer_remove_clients_svc.
    destruct (remove_clients_returns fuel world argp 0%nat st) as [x ->].
    cbn. eauto.
  - eauto.
Qed.

(** C6 (amended): every client in a table reachable through the three
    requests has a chain length between 0 and the handler's bound, which is
    [(g_numLevels + 1) * 2] when that fits in 32 bits; and the
    [UpdateClients] handler skips an item whose priority is not below
    [g_numPriorities] or whose rate list is longer than the bound.  The
    stored length need not be even. *)
Theorem reachable_chain_length_bounded :
  (forall st, reachable st ->
     forall addr c, g_clients st !! addr = Some c ->
       0 <= rateLimitLength c <= max_chain_length)
  /\ (forall fuel world i item rest st,
        g_numPriorities <= Prot.priority item
        \/ max_chain_length < Z.of_nat (length (Prot.rateLimitRates item)) ->
        update_clients_from fuel world i (item :: rest) st
        = update_clients_from fuel world (S i) rest st)
  /\ (0 <= g_numLevels -> (g_numLevels + 1) * 2 < 2 ^ 32 ->
      max_chain_length = (g_numLevels + 1) * 2).
Proof.
  split; [| split].
  - intros st Hst. exact (reachable_chain_bounded st Hst).
  - intros fuel world i item rest st Hbad. cbn [update_clients_from].
    destruct (Z.leb_spec g_numPriorities (Prot.priority item)) as [Hp | Hp];
      [reflexivity |].
    destruct Hbad as [Hbad | Hbad]; [lia |].
    unfold max_chain_length in Hbad.
    destruct (Z.ltb_spec (u32 (u32 (g_numLevels + 1) * 2))
                (Z.of_nat (length (Prot.rateLimitRates item)))); [reflexivity | lia].
  - exact max_chain_length_plain.
Qed.

(** * Further properties of the reconciliation engine *)

Lemma flat_map_agree {A B : Type} (f g : A -> list B) (ls : list A) :
  (forall x, In x ls -> f x = g x) -> flat_map f ls = flat_map g ls.
Proof.
  induction ls as [| x ls IH]; intros H; [reflexivity |].
  cbn [flat_map]. rewrite (H x) by now left.
  rewrite IH by (intros; apply H; now right). reflexivity.
Qed.

Lemma chain_levels_nonneg len l : In l (chain_levels len) -> 0 <= l.
Proof. intros H. apply levels_from_bounds in H. lia. Qed.

(** The walk of a chain that has nothing to build on: a new client, or a
    change of priority. *)
Lemma walk_installs cid prio len rates bursts oldPrio oldLen :
  oldLen = 0 \/ oldPrio <> prio ->
  flat_map (level_cmds cid prio len rates bursts oldPrio oldLen)
           (chain_levels len)
  = flat_map (install_level cid prio len rates bursts) (chain_levels len).
Proof.
  intros Hold. apply flat_map_agree. intros l Hl.
  apply chain_levels_nonneg in Hl.
  unfold level_cmds, level_qdisc, install_level, level_qdisc_cmd.
  assert (((oldLen <=? 2 * l) || negb (oldPrio =? prio)) = true) as ->.
  { destruct Hold as [-> | Hne].
    - assert ((0 <=? 2 * l) = true) as -> by lia. reflexivity.
    - assert ((oldPrio =? prio) = false) as -> by lia. apply orb_true_r. }
  rewrite andb_true_r. reflexivity.
Qed.

(** The walk of a chain that replaces one at the same priority. *)
Lemma walk_extends cid prio len rates bursts oldLen :
  flat_map (level_cmds cid prio len rates bursts prio oldLen)
           (chain_levels len)
  = flat_map (extend_level cid prio len rates bursts oldLen)
             (chain_levels len).
Proof.
  apply flat_map_agree. intros l _.
  unfold level_cmds, level_qdisc, extend_level, level_qdisc_cmd.
  rewrite Z.eqb_refl. cbn [negb]. rewrite orb_false_r. reflexivity.
Qed.

(** X1: the first update of an address not in the table, with a priority
    other than [g_numPriorities], gives the client the next free id and
    advances the counter, stores the requested policy with zeroed byte
    counters and the current time, and only installs: one qdisc per level
    below the first and one class per level, the per-priority filter when
    the chain is not empty, and the root filter when the priority is below
    [g_numPriorities].  Nothing is removed and no counter is read. *)
Theorem updateClient_first_update
    fuel env dst src p len rates bursts st :
  g_clients st !! (dst, src) = None ->
  p <> g_numPriorities ->
  0 <= len <= 2 ^ 32 - 2 -> (Z.to_nat (stages len) <= fuel)%nat ->
  let i := g_nextId st in
  updateClient fuel env dst src p len rates bursts st
  = Some (mkState
            (<[(dst, src) :=
                 mkClient i p len (first_rate len rates)
                          (u64 (GetTime env)) 0%float 0 0]> (g_clients st))
            (u32 (i + 1)),
          flat_map (install_level i p len rates bursts) (chain_levels len)
          ++ (if 0 <? len
              then [AddFilter (HTBBaseHandle p) i dst src (HTBMinor i 0)]
              else [])
          ++ (if p <? g_numPriorities
              then [AddFilter rootHTBHandle i dst src (rootHTBMinor p)]
              else [])).
Proof.
  intros Hnew Hp Hlen Hf i.
  rewrite updateClient_total by auto.
  unfold reconcile_result. rewrite (snapshot_new _ _ _ Hnew).
  cbn [id set_policy]. fold i. fold (chain_levels len).
  rewrite walk_installs by auto.
  unfold base_filter_step, root_filter_step, prune_step, drop_step.
  assert ((g_numPriorities =? p) = false) as -> by lia.
  assert ((p =? g_numPriorities) = false) as -> by lia.
  rewrite Z.ltb_irrefl. cbn [negb orb andb fst snd app Z.eqb Z.ltb Z.compare].
  rewrite andb_true_r, !app_nil_r. reflexivity.
Qed.

Lemma prune_same_priority cid prio len oldLen :
  0 <= len <= 2 ^ 32 - 2 ->
  prune_step cid prio prio oldLen (walk_at cid prio (stages len))
  = if (2 <? oldLen) && (2 * stages len <? oldLen)
    then [RemoveQdisc (class_parent cid prio (Z.max 0 (stages len - 1)))
                      (HTBMinor cid (Z.max 0 (stages len - 1)))
                      (HTBHandle cid prio (Z.max 0 (stages len - 1)))]
    else [].
Proof.
  intros Hlen. unfold prune_step, walk_at.
  cbn [level parentHandle minor childHandle].
  rewrite Z.eqb_refl. cbn [negb].
  rewrite u32_small by (unfold stages; dlia).
  replace (stages len * 2) with (2 * stages len) by lia.
  destruct (2 <? oldLen), (2 * stages len <? oldLen); reflexivity.
Qed.

(** X2: moving a known client to another priority.  The call reads the
    byte counter of the old leaf class (when the old chain is not empty),
    installs the complete new chain and its per-priority filter under the
    new priority, swaps the root filter, and only then removes the old
    chain: its top qdisc, its per-priority filter and its level-0 class.
    The client keeps its id, and the id counter does not move. *)
Theorem updateClient_priority_change
    fuel env dst src p len rates bursts st c :
  g_clients st !! (dst, src) = Some c ->
  priority c <> p ->
  0 <= len <= 2 ^ 32 - 2 -> (Z.to_nat (stages len) <= fuel)%nat ->
  let i := id c in
  let c' :=
    set_prevSentBytes
      (set_policy (fst (updateSentBytes env c)) p len (first_rate len rates))
      0 in
  updateClient fuel env dst src p len rates bursts st
  = Some (mkState (if p =? g_numPriorities
                   then delete (dst, src) (g_clients st)
                   else <[(dst, src) := c']> (g_clients st))
                  (g_nextId st),
          (if 0 <? rateLimitLength c
           then [ClassShow (HTBBaseHandle (priority c))] else [])
          ++ flat_map (install_level i p len rates bursts) (chain_levels len)
          ++ (if 0 <? len
              then [AddFilter (HTBBaseHandle p) i dst src (HTBMinor i 0)]
              else [])
          ++ (if priority c <? g_numPriorities
              then [RemoveFilter rootHTBHandle i] else [])
          ++ (if p <? g_numPriorities
              then [AddFilter rootHTBHandle i dst src (rootHTBMinor p)]
              else [])
          ++ teardown_cmds i (priority c) (rateLimitLength c)).
Proof.
  intros Hc Hp Hlen Hf i c'.
  rewrite updateClient_total by eauto.
  unfold reconcile_result. rewrite (snapshot_known _ _ _ c Hc).
  destruct (updateSentBytes_policy env c) as (Ei & _). rewrite Ei. fold i.
  fold (chain_levels len). rewrite walk_installs by auto.
  unfold base_filter_step, root_filter_step, prune_step, drop_step,
    teardown_cmds.
  assert ((priority c =? p) = false) as -> by lia.
  cbn [negb fst snd]. rewrite !orb_true_r, !andb_true_r.
  subst c'. unfold first_rate. rewrite <- !app_assoc. reflexivity.
Qed.

(** X3: changing the chain of a known client at the same priority.  The
    class of every level is replaced; a qdisc is added only for the levels
    the old chain did not reach; the per-priority filter is added only when
    there was no chain before; a single [removeQdisc], at the first level
    no longer used, is issued when the chain got shorter; the per-priority
    filter and level-0 class are removed when the chain becomes empty.  The
    root filter is not touched and [prevSentBytes] keeps the sample. *)
Theorem updateClient_same_priority
    fuel env dst src len rates bursts st c :
  g_clients st !! (dst, src) = Some c ->
  0 <= len <= 2 ^ 32 - 2 -> (Z.to_nat (stages len) <= fuel)%nat ->
  let i := id c in
  let p := priority c in
  let oldLen := rateLimitLength c in
  let k := Z.max 0 (stages len - 1) in
  let c' :=
    set_policy (fst (updateSentBytes env c)) p len (first_rate len rates) in
  updateClient fuel env dst src p len rates bursts st
  = Some (mkState (if p =? g_numPriorities
                   then delete (dst, src) (g_clients st)
                   else <[(dst, src) := c']> (g_clients st))
                  (g_nextId st),
          (if 0 <? oldLen then [ClassShow (HTBBaseHandle p)] else [])
          ++ flat_map (extend_level i p len rates bursts oldLen)
                      (chain_levels len)
          ++ (if (0 <? len) && (oldLen =? 0)
              then [AddFilter (HTBBaseHandle p) i dst src (HTBMinor i 0)]
              else [])
          ++ (if (2 <? oldLen) && (2 * stages len <? oldLen)
              then [RemoveQdisc (class_parent i p k) (HTBMinor i k)
                                (HTBHandle i p k)]
              else [])
          ++ (if (0 <? oldLen) && (len =? 0)
              then [RemoveFilter (HTBBaseHandle p) i;
                    RemoveClass (HTBBaseHandle p) (HTBMinor i 0)]
              else [])).
Proof.
  intros Hc Hlen Hf i p oldLen k c'.
  rewrite updateClient_total by eauto.
  unfold reconcile_result. rewrite (snapshot_known _ _ _ c Hc).
  destruct (updateSentBytes_policy env c) as (Ei & _). rewrite Ei.
  fold i p oldLen. fold (chain_levels len).
  rewrite walk_extends, prune_same_priority by assumption.
  unfold base_filter_step, root_filter_step, drop_step.
  rewrite Z.eqb_refl. cbn [negb fst snd app]. rewrite !orb_false_r.
  subst c'. unfold first_rate. reflexivity.
Qed.

(** X4: [updateClient] for one address leaves the entry of every other
    address as it was. *)
Theorem updateClient_other_addresses
    fuel env dst src p len rates bursts st st' t addr :
  updateClient fuel env dst src p len rates bursts st = Some (st', t) ->
  addr <> (dst, src) ->
  g_clients st' !! addr = g_clients st !! addr.
Proof.
  unfold updateClient. intros H Hne.
  destruct (_ && _); [injection H as <- _; reflexivity |].
  destruct (reconcile _ _ _ _ _ _ _ _ _) as [[[c nextId] t'] |];
    [| discriminate].
  injection H as <- _. cbn [g_clients].
  destruct (p =? g_numPriorities).
  - apply lookup_delete_ne. auto.
  - apply lookup_insert_ne. auto.
Qed.

(** ** Removal *)

Lemma remove_known_client fuel env dst src st c :
  g_clients st !! (dst, src) = Some c ->
  priority c <> g_numPriorities ->
  updateClient fuel env dst src g_numPriorities 0 [] [] st
  = Some (mkState (delete (dst, src) (g_clients st)) (g_nextId st),
          (if 0 <? rateLimitLength c
           then [ClassShow (HTBBaseHandle (priority c))] else [])
          ++ (if priority c <? g_numPriorities
              then [RemoveFilter rootHTBHandle (id c)] else [])
          ++ teardown_cmds (id c) (priority c) (rateLimitLength c)).
Proof.
  intros Hc Hp.
  rewrite updateClient_total;
    [| lia | change (stages 0) with 0; lia | right; eauto].
  unfold reconcile_result. rewrite (snapshot_known _ _ _ c Hc).
  destruct (updateSentBytes_policy env c) as (Ei & _).
  rewrite Ei, Z.eqb_refl.
  unfold base_filter_step, root_filter_step, prune_step, drop_step,
    teardown_cmds.
  assert ((priority c =? g_numPriorities) = false) as -> by lia.
  rewrite (Z.ltb_irrefl g_numPriorities).
  change (Z.to_nat (stages 0)) with 0%nat.
  cbn [negb orb andb fst snd levels_from flat_map app Z.ltb Z.compare Z.eqb].
  rewrite ?orb_true_r, ?andb_true_r, ?app_nil_r. reflexivity.
Qed.

Lemma install_level_no_filter cid prio len rates bursts ls h j d s m :
  ~ In (AddFilter h j d s m)
       (flat_map (install_level cid prio len rates bursts) ls).
Proof.
  intros H. apply in_flat_map in H as (l & _ & H).
  unfold install_level, level_qdisc_cmd, level_class in H.
  apply in_app_or in H as [H | H].
  - destruct (0 <? l); cbn in H; [destruct H as [H | []] |]; easy.
  - cbn in H. destruct H as [H | []]. discriminate.
Qed.

(** X5: an update of a new address followed by its removal restores the
    table: the entry is gone and only the id counter has advanced.  The
    removal reads the counter (for a non-empty chain), removes the root
    filter and tears the chain down; every filter the update added, on
    whatever qdisc, is removed again under the same prio. *)
Theorem update_then_remove_restores_table
    fuel env world dst src p len rates bursts st :
  g_clients st !! (dst, src) = None ->
  p < g_numPriorities ->
  0 <= len <= 2 ^ 32 - 2 -> (Z.to_nat (stages len) <= fuel)%nat ->
  let i := g_nextId st in
  exists st1 t1 t2,
    updateClient fuel env dst src p len rates bursts st = Some (st1, t1)
    /\ net_enforcer_remove_clients_svc fuel world [Prot.mkNetClient dst src]
         st1
       = Some (mkState (g_clients st) (u32 (i + 1)), t2)
    /\ t2 = (if 0 <? len then [ClassShow (HTBBaseHandle p)] else [])
            ++ [RemoveFilter rootHTBHandle i]
            ++ teardown_cmds i p len
    /\ (forall h j d s m,
          In (AddFilter h j d s m) t1 -> In (RemoveFilter h j) t2).
Proof.
  intros Hnew Hp Hlen Hf i.
  assert (p <> g_numPriorities) as Hne by lia.
  pose proof (updateClient_total fuel env dst src p len rates bursts st
                Hlen Hf (or_introl Hne)) as U1.
  unfold reconcile_result in U1. rewrite (snapshot_new _ _ _ Hnew) in U1.
  cbn [id set_policy] in U1. fold i in U1. fold (chain_levels len) in U1.
  rewrite walk_installs in U1 by auto.
  unfold base_filter_step, root_filter_step, prune_step, drop_step in U1.
  assert ((g_numPriorities =? p) = false) as Eq1 by lia.
  assert ((p =? g_numPriorities) = false) as Eq2 by lia.
  assert ((p <? g_numPriorities) = true) as Eq3 by lia.
  rewrite Eq1, Eq2, Eq3, (Z.ltb_irrefl g_numPriorities) in U1.
  cbn [negb orb andb fst snd app Z.eqb Z.ltb Z.compare] in U1.
  rewrite ?andb_true_r, ?app_nil_r in U1.
  set (c1 := set_prevSentBytes _ 0) in U1.
  set (st1 := mkState (<[(dst, src) := c1]> (g_clients st)) (u32 (i + 1)))
    in U1.
  assert (g_clients st1 !! (dst, src) = Some c1) as L1
    by apply lookup_insert_eq.
  assert (priority c1 <> g_numPriorities) as Hp1 by (cbn; lia).
  pose proof (remove_known_client fuel (world 0%nat) dst src st1 c1 L1 Hp1)
    as U2.
  change (priority c1) with p in U2.
  change (rateLimitLength c1) with len in U2.
  change (id c1) with i in U2. rewrite Eq3 in U2.
  cbn [g_clients g_nextId st1] in U2.
  rewrite (delete_insert_id _ _ _ Hnew) in U2.
  eexists _, _, _. split; [exact U1 |]. split.
  - unfold net_enforcer_remove_clients_svc. cbn [remove_clients_from].
    cbn [Prot.s_dstAddr Prot.s_srcAddr]. rewrite U2, app_nil_r. reflexivity.
  - split; [reflexivity |]. intros h j d s m Hin.
    apply in_app_or in Hin as [Hin | Hin];
      [exfalso; eapply install_level_no_filter; exact Hin |].
    unfold teardown_cmds.
    destruct (0 <? len), (2 <? len); cbn in Hin |- *;
      repeat match goal with
             | H : _ \/ _ |- _ => destruct H
             | H : AddFilter _ _ _ _ _ = AddFilter _ _ _ _ _ |- _ =>
                 injection H as <- <- _ _ _
             | H : False |- _ => destruct H
             end; auto 10.
Qed.

(** ** Table entries after a call *)

Lemma reconcile_counter fuel env dst src p len rates bursts st c nextId t :
  reconcile fuel env dst src p len rates bursts st = Some (c, nextId, t) ->
  nextId = match g_clients st !! (dst, src) with
           | None => u32 (g_nextId st + 1)
           | Some _ => g_nextId st
           end.
Proof.
  unfold reconcile.
  destruct (g_clients st !! (dst, src)) as [c0 |] eqn:E.
  - rewrite (snapshot_known _ _ _ c0 E).
    destruct (walk _ _ _ _ _ _ _ _ _) as [[w t1] |]; [| discriminate].
    destruct (root_filter_step _ _ _ _ _ _). now intros [= _ <- _].
  - rewrite (snapshot_new _ _ _ E).
    destruct (walk _ _ _ _ _ _ _ _ _) as [[w t1] |]; [| discriminate].
    destruct (root_filter_step _ _ _ _ _ _). now intros [= _ <- _].
Qed.

(** An entry of the table after [updateClient] is either the entry of the
    updated address, carrying the requested policy and the id the call
    worked under, or an entry of another address, unchanged. *)
Lemma updateClient_entries fuel env dst src p len rates bursts st st' t a c' :
  updateClient fuel env dst src p len rates bursts st = Some (st', t) ->
  g_clients st' !! a = Some c' ->
  (a = (dst, src) /\ priority c' = p /\ rateLimitLength c' = len
   /\ id c' = client_id st (dst, src) /\ p <> g_numPriorities)
  \/ (a <> (dst, src) /\ g_clients st !! a = Some c').
Proof.
  unfold updateClient.
  destruct (bool_decide _ && _) eqn:Egate.
  - intros [= <- _] Ha. right. split; [| exact Ha].
    apply andb_prop in Egate as [Enew _].
    apply bool_decide_eq_true in Enew. congruence.
  - destruct (reconcile _ _ _ _ _ _ _ _ _) as [[[c nextId] t'] |] eqn:R;
      [| discriminate].
    apply reconcile_policy in R. destruct R as (Ep & El & Ei & _).
    intros [= <- _]. cbn [g_clients].
    destruct (Z.eqb_spec p g_numPriorities) as [HP | HP].
    + rewrite lookup_delete. case_decide; [discriminate |]. auto.
    + rewrite lookup_insert. case_decide.
      * intros [= <-]. left. subst a. auto.
      * auto.
Qed.

Lemma updateClient_counter fuel env dst src p len rates bursts st st' t :
  updateClient fuel env dst src p len rates bursts st = Some (st', t) ->
  g_nextId st' = g_nextId st
  \/ (g_clients st !! (dst, src) = None /\ g_nextId st' = u32 (g_nextId st + 1)).
Proof.
  unfold updateClient.
  destruct (bool_decide _ && _); [intros [= <- _]; auto |].
  destruct (reconcile _ _ _ _ _ _ _ _ _) as [[[c nextId] t'] |] eqn:R;
    [| discriminate].
  apply reconcile_counter in R. intros [= <- _]. cbn [g_nextId].
  destruct (g_clients st !! (dst, src)); auto.
Qed.

(** ** Ids stay unique while the counter does not wrap *)

Lemma updateClient_ids_fresh fuel env dst src p len rates bursts st st' t :
  ids_fresh st -> 0 <= g_nextId st -> g_nextId st + 1 < 2 ^ 32 ->
  updateClient fuel env dst src p len rates bursts st = Some (st', t) ->
  ids_fresh st' /\ g_nextId st <= g_nextId st' <= g_nextId st + 1.
Proof.
  intros [Hlt Hinj] H0 Hroom U.
  assert (g_nextId st <= g_nextId st' <= g_nextId st + 1) as Hn.
  { destruct (updateClient_counter _ _ _ _ _ _ _ _ _ _ _ U) as [-> | [_ ->]];
      [lia | rewrite u32_small; lia]. }
  assert (forall a c', g_clients st' !! a = Some c' ->
            0 <= id c' < g_nextId st'
            /\ (id c' < g_nextId st ->
                exists c, g_clients st !! a = Some c /\ id c = id c')) as Hent.
  { intros a c' Ha.
    destruct (updateClient_entries _ _ _ _ _ _ _ _ _ _ _ _ _ U Ha)
      as [(-> & _ & _ & Ei & _) | (Hne & Hold)].
    - unfold client_id in Ei.
      destruct (g_clients st !! (dst, src)) as [c |] eqn:E.
      + pose proof (Hlt _ _ E). split; [lia | eauto].
      + destruct (updateClient_counter _ _ _ _ _ _ _ _ _ _ _ U)
          as [En | [_ En]].
        * exfalso.
          unfold updateClient in U. rewrite E in U.
          change (bool_decide (None = None)) with true in U.
          cbn [andb] in U.
          destruct (Z.eqb_spec p g_numPriorities) as [HP | HP].
          -- injection U as <- _. rewrite E in Ha. discriminate.
          -- destruct (reconcile _ _ _ _ _ _ _ _ _) as [[[c n] t'] |] eqn:R;
               [| discriminate].
             apply reconcile_counter in R. rewrite E in R.
             injection U as <- _. cbn [g_nextId] in En.
             rewrite R, u32_small in En; lia.
        * rewrite En, u32_small by lia. split; [lia | lia].
    - pose proof (Hlt _ _ Hold). split; [lia | eauto]. }
  split; [| exact Hn]. split.
  - intros a c' Ha. exact (proj1 (Hent _ _ Ha)).
  - intros a1 a2 c1 c2 H1 H2 Eid.
    destruct (Hent _ _ H1) as [B1 O1], (Hent _ _ H2) as [B2 O2].
    destruct (Z.lt_ge_cases (id c1) (g_nextId st)) as [Hlow | Hhigh].
    + destruct (O1 Hlow) as (d1 & D1 & E1).
      destruct (O2 ltac:(lia)) as (d2 & D2 & E2).
      eapply Hinj; [exact D1 | exact D2 | congruence].
    + destruct (updateClient_entries _ _ _ _ _ _ _ _ _ _ _ _ _ U H1)
        as [(-> & _) | (_ & Hold1)];
        [| pose proof (Hlt _ _ Hold1); lia].
      destruct (updateClient_entries _ _ _ _ _ _ _ _ _ _ _ _ _ U H2)
        as [(-> & _) | (_ & Hold2)];
        [reflexivity | pose proof (Hlt _ _ Hold2); lia].
Qed.

(** ** The occupancy query *)

(** An entry of the table after [getOccupancy] is an entry of another
    address, unchanged, or the entry of the queried address, which has the
    id, priority, chain length and rate it had before (those of the zeroed
    entry when the address was unknown). *)
Lemma getOccupancy_entries env dst src st a c' :
  g_clients (snd (fst (getOccupancy env dst src st))) !! a = Some c' ->
  (a <> (dst, src) /\ g_clients st !! a = Some c')
  \/ (a = (dst, src)
      /\ let c := default Client_zero (g_clients st !! (dst, src)) in
         id c' = id c /\ priority c' = priority c
         /\ rateLimitLength c' = rateLimitLength c /\ rate c' = rate c).
Proof.
  unfold getOccupancy, subscript.
  destruct (g_clients st !! (dst, src)) as [c |] eqn:E; cbn [default].
  - destruct (negb (priority c =? 0)).
    + destruct (updateSentBytes_policy env c) as (Ei & Ep & El & Er).
      destruct (updateSentBytes env c) as [c1 t]. cbn [fst snd g_clients] in *.
      rewrite lookup_insert. case_decide.
      * intros [= <-]. right. subst a. cbn. auto.
      * auto.
    + cbn [fst snd g_clients]. intros Ha.
      destruct (decide (a = (dst, src))) as [-> | Hne]; [| auto].
      right. rewrite E in Ha. injection Ha as <-. cbn. auto.
  - cbn [Client_zero priority Z.eqb negb fst snd g_clients].
    rewrite lookup_insert. case_decide.
    + intros [= <-]. right. subst a. cbn. auto.
    + auto.
Qed.

Lemma getOccupancy_counter env dst src st :
  g_nextId (snd (fst (getOccupancy env dst src st))) = g_nextId st.
Proof.
  unfold getOccupancy.
  destruct (subscript _ _) as [c m]. destruct (negb _); [| reflexivity].
  destruct (updateSentBytes env c). reflexivity.
Qed.


(** X9: for a client of the table at priority 0 the query returns 0, runs
    no command and leaves the state alone: the byte counters of a priority-0
    client are neither sampled nor reset, even when it is rate limited. *)
Theorem getOccupancy_priority_zero env dst src st c :
  g_clients st !! (dst, src) = Some c -> priority c = 0 ->
  getOccupancy env dst src st = (0%float, st, []).
Proof.
  intros Hc Hp. unfold getOccupancy, subscript. rewrite Hc, Hp.
  cbn [Z.eqb negb]. destruct st. reflexivity.
Qed.

(** X10: an occupancy query keeps every entry in the table with its id,
    priority, chain length and rate, and does not move the id counter; for
    a known client at a priority other than 0 it leaves both accumulators,
    [sentBytes] and [maxSentBytes], at 0. *)
Theorem getOccupancy_keeps_policy env dst src st :
  let st' := snd (fst (getOccupancy env dst src st)) in
  g_nextId st' = g_nextId st
  /\ (forall a c, g_clients st !! a = Some c ->
        exists c', g_clients st' !! a = Some c'
                   /\ id c' = id c /\ priority c' = priority c
                   /\ rateLimitLength c' = rateLimitLength c
                   /\ rate c' = rate c)
  /\ (forall c, g_clients st !! (dst, src) = Some c -> priority c <> 0 ->
        exists c', g_clients st' !! (dst, src) = Some c'
                   /\ sentBytes c' = 0 /\ maxSentBytes c' = 0%float).
Proof.
  intros st'. split; [apply getOccupancy_counter |]. subst st'.
  unfold getOccupancy, subscript. split.
  - intros a c Ha.
    destruct (g_clients st !! (dst, src)) as [c0 |] eqn:E.
    + destruct (negb (priority c0 =? 0)).
      * destruct (updateSentBytes_policy env c0) as (Ei & Ep & El & Er).
        destruct (updateSentBytes env c0) as [c1 t].
        cbn [fst snd g_clients] in *.
        destruct (decide (a = (dst, src))) as [-> | Hne].
        -- rewrite lookup_insert_eq. eexists. split; [reflexivity |].
           assert (c = c0) as -> by congruence. cbn. auto.
        -- rewrite lookup_insert_ne by auto. eauto 10.
      * cbn [fst snd g_clients]. eauto 10.
    + cbn [Client_zero priority Z.eqb negb fst snd g_clients].
      rewrite lookup_insert_ne by congruence. eauto 10.
  - intros c Hc Hp. rewrite Hc.
    assert ((priority c =? 0) = false) as -> by lia. cbn [negb].
    destruct (updateSentBytes env c) as [c1 t]. cbn [fst snd g_clients].
    rewrite lookup_insert_eq. eexists. split; [reflexivity |]. cbn. auto.
Qed.

(** ** RemoveClients *)

Lemma updateClient_delete_state fuel env dst src len rates bursts st st' t :
  updateClient fuel env dst src g_numPriorities len rates bursts st
  = Some (st', t) ->
  st' = mkState (delete (dst, src) (g_clients st)) (g_nextId st).
Proof.
  unfold updateClient. rewrite Z.eqb_refl, andb_true_r.
  destruct (g_clients st !! (dst, src)) as [c |] eqn:E.
  - change (bool_decide (Some c = None)) with false. cbn iota.
    destruct (reconcile _ _ _ _ _ _ _ _ _) as [[[c' nextId] t'] |] eqn:R;
      [| discriminate].
    apply reconcile_counter in R. rewrite E in R. intros [= <- _].
    now subst nextId.
  - change (bool_decide (None = None)) with true. cbn iota.
    intros [= <- _]. rewrite delete_id by exact E. now destruct st.
Qed.

(** X12: [RemoveClients] always returns, whatever the fuel; afterwards the
    table is the old table without the listed addresses (an address that is
    not in the table is skipped) and the id counter has not moved. *)
Theorem remove_clients_deletes_listed fuel world argp st :
  exists t,
    net_enforcer_remove_clients_svc fuel world argp st
    = Some (mkState (remove_all argp (g_clients st)) (g_nextId st), t).
Proof.
  unfold net_enforcer_remove_clients_svc. generalize 0%nat as i.
  revert st. induction argp as [| a argp IH]; intros st i.
  - exists []. destruct st. reflexivity.
  - destruct (remove_clients_returns fuel world (a :: argp) i st)
      as [[st2 t2] E].
    cbn [remove_clients_from] in E |- *.
    destruct (updateClient _ _ _ _ _ _ _ _ _) as [[st1 t1] |] eqn:U;
      [| discriminate].
    apply updateClient_delete_state in U. subst st1.
    destruct (IH (mkState (delete (Prot.s_dstAddr a, Prot.s_srcAddr a)
                                  (g_clients st)) (g_nextId st)) (S i))
      as [t' ->].
    eexists. reflexivity.
Qed.

(** ** Ids and priorities across requests *)

Lemma ids_fresh_delete st addr :
  ids_fresh st -> ids_fresh (mkState (delete addr (g_clients st)) (g_nextId st)).
Proof.
  intros [Hlt Hinj]. split; cbn [g_clients g_nextId].
  - intros a c H. apply lookup_delete_Some in H as [_ H]. eauto.
  - intros a1 a2 c1 c2 H1 H2.
    apply lookup_delete_Some in H1 as [_ H1].
    apply lookup_delete_Some in H2 as [_ H2]. eauto.
Qed.

Lemma remove_clients_ids_fresh fuel world args : forall i st st' t,
  ids_fresh st ->
  remove_clients_from fuel world i args st = Some (st', t) ->
  ids_fresh st' /\ g_nextId st' = g_nextId st.
Proof.
  induction args as [| a args IH]; intros i st st' t Hst;
    cbn [remove_clients_from].
  - intros [= <- _]. auto.
  - destruct (updateClient _ _ _ _ _ _ _ _ _) as [[st1 t1] |] eqn:U;
      [| discriminate].
    apply updateClient_delete_state in U. subst st1.
    destruct (remove_clients_from _ _ _ _ _) as [[st2 t2] |] eqn:R;
      [| discriminate].
    intros [= <- _]. eapply IH in R; [exact R | apply ids_fresh_delete, Hst].
Qed.

Lemma update_clients_ids_fresh fuel world args : forall i st st' t,
  ids_fresh st -> 0 <= g_nextId st ->
  g_nextId st + Z.of_nat (length args) < 2 ^ 32 ->
  update_clients_from fuel world i args st = Some (st', t) ->
  ids_fresh st'
  /\ g_nextId st <= g_nextId st' <= g_nextId st + Z.of_nat (length args).
Proof.
  induction args as [| a args IH]; intros i st st' t Hst H0 Hroom;
    cbn [update_clients_from].
  - intros [= <- _]. cbn. split; [exact Hst | lia].
  - cbn [length] in Hroom |- *.
    assert (forall x, update_clients_from fuel world (S i) args st = Some x ->
              ids_fresh (fst x)
              /\ g_nextId st <= g_nextId (fst x)
                 <= g_nextId st + Z.of_nat (S (length args))) as Hskip.
    { intros [s u] E. apply IH in E; [cbn; split; [apply E | lia] | auto | auto
                                     | lia]. }
    destruct (g_numPriorities <=? _); [intros E; exact (Hskip _ E) |].
    destruct (_ <? _); [intros E; exact (Hskip _ E) |].
    destruct (updateClient _ _ _ _ _ _ _ _ _) as [[st1 t1] |] eqn:U;
      [| discriminate].
    apply updateClient_ids_fresh in U; [| auto | auto | lia].
    destruct U as [Hst1 Hn1].
    destruct (update_clients_from _ _ _ _ st1) as [[st2 t2] |] eqn:R;
      [| discriminate].
    intros [= <- _]. apply IH in R; [| auto | lia | lia].
    split; [apply R | lia].
Qed.

Lemma getOccupancy_ids_fresh env dst src st :
  ids_fresh st -> is_Some (g_clients st !! (dst, src)) ->
  ids_fresh (snd (fst (getOccupancy env dst src st))).
Proof.
  intros [Hlt Hinj] [c Hc].
  assert (forall a c', g_clients (snd (fst (getOccupancy env dst src st))) !! a
                       = Some c' ->
            exists c0, g_clients st !! a = Some c0 /\ id c0 = id c') as Hold.
  { intros a c' Ha. apply getOccupancy_entries in Ha.
    destruct Ha as [[_ Ha] | [-> Ha]]; [eauto |].
    rewrite Hc in Ha. cbn in Ha. destruct Ha as (Ei & _). eauto. }
  split.
  - intros a c' Ha. rewrite getOccupancy_counter.
    destruct (Hold _ _ Ha) as (c0 & H0 & <-). eauto.
  - intros a1 a2 c1 c2 H1 H2 Eid.
    destruct (Hold _ _ H1) as (d1 & D1 & E1).
    destruct (Hold _ _ H2) as (d2 & D2 & E2).
    eapply Hinj; [exact D1 | exact D2 | congruence].
Qed.

(** X6: ids stay unique.  When every entry has an id below the counter and
    no two entries share an id, the same holds after any request, as long
    as the counter cannot pass 2^32 (an update allocates at most one id per
    item) and an occupancy query names an address of the table.  The
    counter never decreases. *)
Theorem serve_keeps_ids_fresh fuel r st st' :
  ids_fresh st -> 0 <= g_nextId st ->
  g_nextId st + request_size r < 2 ^ 32 ->
  query_known r st ->
  serve fuel r st = Some st' ->
  ids_fresh st'
  /\ g_nextId st <= g_nextId st' <= g_nextId st + request_size r.
Proof.
  intros Hst H0 Hroom Hq.
  destruct r as [world argp | world argp | env argp];
    cbn [serve request_size query_known] in *.
  - unfold net_enforcer_update_clients_svc.
    destruct (update_clients_from _ _ _ _ _) as [[s t] |] eqn:U;
      [| discriminate].
    intros [= <-]. eapply update_clients_ids_fresh; eassumption.
  - unfold net_enforcer_remove_clients_svc.
    destruct (remove_clients_from _ _ _ _ _) as [[s t] |] eqn:U;
      [| discriminate].
    intros [= <-]. apply remove_clients_ids_fresh in U; [| exact Hst].
    destruct U as [Hs ->]. split; [exact Hs | lia].
  - intros [= <-]. unfold net_enforcer_get_occupancy_svc.
    rewrite getOccupancy_counter.
    split; [apply getOccupancy_ids_fresh; assumption | lia].
Qed.

Lemma update_clients_priority_bounded fuel world args : forall i st st' t,
  priority_bounded st ->
  update_clients_from fuel world i args st = Some (st', t) ->
  priority_bounded st'.
Proof.
  induction args as [| a args IH]; intros i st st' t Hst;
    cbn [update_clients_from].
  - intros [= <- _]. exact Hst.
  - destruct (Z.leb_spec g_numPriorities (Prot.priority a)) as [Hp | Hp];
      [apply IH, Hst |].
    destruct (_ <? _); [apply IH, Hst |].
    destruct (updateClient _ _ _ _ _ _ _ _ _) as [[st1 t1] |] eqn:U;
      [| discriminate].
    destruct (update_clients_from _ _ _ _ st1) as [[st2 t2] |] eqn:R;
      [| discriminate].
    intros [= <- _]. eapply IH; [| exact R].
    intros b c' Hb.
    destruct (updateClient_entries _ _ _ _ _ _ _ _ _ _ _ _ _ U Hb)
      as [(_ & -> & _) | (_ & Hold)]; [exact Hp | eapply Hst, Hold].
Qed.

Lemma remove_clients_priority_bounded fuel world args : forall i st st' t,
  priority_bounded st ->
  remove_clients_from fuel world i args st = Some (st', t) ->
  priority_bounded st'.
Proof.
  induction args as [| a args IH]; intros i st st' t Hst;
    cbn [remove_clients_from].
  - intros [= <- _]. exact Hst.
  - destruct (updateClient _ _ _ _ _ _ _ _ _) as [[st1 t1] |] eqn:U;
      [| discriminate].
    apply updateClient_delete_state in U. subst st1.
    destruct (remove_clients_from _ _ _ _ _) as [[st2 t2] |] eqn:R;
      [| discriminate].
    intros [= <- _]. eapply IH; [| exact R].
    intros b c' Hb. cbn [g_clients] in Hb.
    apply lookup_delete_Some in Hb as [_ Hb]. eapply Hst, Hb.
Qed.

(** X7: with at least one priority level configured, no client of a table
    reachable through the three requests has a priority of
    [g_numPriorities] or above: the value that stands for removal is never
    stored. *)
Theorem reachable_priority_bounded st addr c :
  0 < g_numPriorities -> reachable st ->
  g_clients st !! addr = Some c -> priority c < g_numPriorities.
Proof.
  intros HP Hst. revert addr c. change (priority_bounded st).
  induction Hst as [| fuel r st st' _ IH Hserve].
  - intros addr c H. cbn in H. rewrite lookup_empty in H. discriminate.
  - destruct r as [world argp | world argp | env argp]; cbn [serve] in Hserve.
    + unfold net_enforcer_update_clients_svc in Hserve.
      destruct (update_clients_from _ _ _ _ _) as [[s t] |] eqn:U;
        [| discriminate].
      injection Hserve as <-.
      eapply update_clients_priority_bounded; eassumption.
    + unfold net_enforcer_remove_clients_svc in Hserve.
      destruct (remove_clients_from _ _ _ _ _) as [[s t] |] eqn:U;
        [| discriminate].
      injection Hserve as <-.
      eapply remove_clients_priority_bounded; eassumption.
    + injection Hserve as <-. intros b c' Hb.
      unfold net_enforcer_get_occupancy_svc in Hb.
      apply getOccupancy_entries in Hb.
      destruct Hb as [[_ Hb] | [_ Hb]]; [eapply IH, Hb |].
      cbn zeta in Hb. destruct Hb as (_ & -> & _).
      destruct (g_clients st !! _) as [c0 |] eqn:E; cbn [default].
      * eapply IH, E.
      * exact HP.
Qed.

(** ** Byte accounting *)

(** X11: sampling a rate-limited client twice counts the same bytes as
    sampling it once with the second reading: the byte count, the last raw
    counter and the time stamp after the second sample do not depend on the
    first one (all arithmetic modulo 2^64). *)
Theorem updateSentBytes_intermediate_sample env1 env2 c :
  let c1 := fst (updateSentBytes env1 c) in
  let c2 := fst (updateSentBytes env2 c1) in
  let direct := fst (updateSentBytes env2 c) in
  sentBytes c2 = sentBytes direct
  /\ prevSentBytes c2 = prevSentBytes direct
  /\ lastSentBytesTime c2 = lastSentBytesTime direct.
Proof.
  cbn zeta. unfold updateSentBytes, getSentBytes.
  destruct (0 <? rateLimitLength c) eqn:E; cbn [fst set_counters rateLimitLength
    priority id sentBytes prevSentBytes lastSentBytesTime];
    rewrite E; cbn [fst set_counters sentBytes prevSentBytes
                    lastSentBytesTime]; [| auto].
  split; [| auto].
  generalize (readSentBytes env1 (HTBBaseHandle (priority c))
                            (HTBMinor (id c) 0)) as r1.
  generalize (readSentBytes env2 (HTBBaseHandle (priority c))
                            (HTBMinor (id c) 0)) as r2.
  generalize (sentBytes c) as s. generalize (prevSentBytes c) as q.
  intros q s r2 r1. unfold u64. dlia.
Qed.

(** ** Batches *)

(** X13: a batch of updates is handled item by item with no state of its
    own: handling [l1 ++ l2] is handling [l1] and then [l2] on the state the
    first part left, with the commands of both in order. *)
Theorem update_clients_split fuel world l1 l2 : forall i st,
  update_clients_from fuel world i (l1 ++ l2) st
  = match update_clients_from fuel world i l1 st with
    | None => None
    | Some (st1, t1) =>
        match update_clients_from fuel world (i + length l1)%nat l2 st1 with
        | None => None
        | Some (st2, t2) => Some (st2, t1 ++ t2)
        end
    end.
Proof.
  induction l1 as [| a l1 IH]; intros i st.
  - cbn [app update_clients_from length]. rewrite Nat.add_0_r.
    destruct (update_clients_from fuel world i l2 st) as [[st2 t2] |];
      reflexivity.
  - cbn [app update_clients_from length].
    replace (i + S (length l1))%nat with (S i + length l1)%nat by lia.
    destruct (g_numPriorities <=? _); [apply IH |].
    destruct (_ <? _); [apply IH |].
    destruct (updateClient _ _ _ _ _ _ _ _ _) as [[st1 t1] |]; [| reflexivity].
    rewrite IH.
    destruct (update_clients_from fuel world (S i) l1 st1) as [[st2 t2] |];
      [| reflexivity].
    destruct (update_clients_from _ _ _ l2 st2) as [[st3 t3] |];
      [| reflexivity].
    rewrite app_assoc. reflexivity.
Qed.




(** ** A chain length the loop cannot handle *)

Lemma walk_never_ends cid prio rates bursts oldPrio oldLen fuel : forall w,
  walk cid prio (2 ^ 32 - 1) rates bursts oldPrio oldLen fuel w = None.
Proof.
  induction fuel as [| fuel IH]; intros w; cbn [walk];
    assert ((u32 (level w * 2) <? 2 ^ 32 - 1) = true) as ->
      by (apply Z.ltb_lt; unfold u32; dlia);
    [reflexivity |].
  destruct (walk_body _ _ _ _ _ _ _ w) as [w' t]. rewrite IH. reflexivity.
Qed.

(** X15: for a chain length of 2^32 - 1 the loop test
    [(level * 2) < rateLimitLength] never fails, because [level * 2] wraps
    around to an even number: [updateClient] does not return, whatever the
    fuel, unless it leaves at once (unknown address and priority
    [g_numPriorities]). *)
Theorem updateClient_never_returns_at_max_length
    fuel env dst src p rates bursts st :
  p <> g_numPriorities \/ is_Some (g_clients st !! (dst, src)) ->
  updateClient fuel env dst src p (2 ^ 32 - 1) rates bursts st = None.
Proof.
  intros Hgate. unfold updateClient.
  assert (bool_decide (g_clients st !! (dst, src) = None)
          && (p =? g_numPriorities) = false) as ->.
  { destruct Hgate as [Hp | [c Hc]].
    - apply andb_false_intro2. lia.
    - apply andb_false_intro1. rewrite Hc. reflexivity. }
  unfold reconcile.
  destruct (snapshot env (dst, src) st) as [[[[c0 nextId] oldP] oldLen] t0].
  rewrite walk_never_ends. reflexivity.
Qed.

(** ** Qdisc handles stay in the allocator's range *)

Lemma qdisc_of_walk cid prio len rates bursts oldPrio oldLen ls a b h :
  In (AddHTBQdisc a b h)
     (flat_map (level_cmds cid prio len rates bursts oldPrio oldLen) ls) ->
  exists l, In l ls /\ 0 < l /\ h = HTBHandle cid prio (l - 1).
Proof.
  intros H. apply in_flat_map in H as (l & Hl & H).
  unfold level_cmds, level_qdisc, level_class in H.
  apply in_app_or in H as [H | H].
  - destruct (0 <? l) eqn:E0; cbn [andb] in H; [| destruct H].
    destruct (_ || _); [| destruct H]. cbn [In] in H.
    destruct H as [[= _ _ <-] | []]. exists l. repeat split; auto. lia.
  - cbn [In] in H. destruct H as [H | []]. discriminate.
Qed.

Lemma HTBHandle_level_overflow i p :
  HTBHandle i p g_numLevels = HTBHandle i (p + 1) 0.
Proof.
  unfold HTBHandle.
  replace ((p + 1) * g_numLevels) with (p * g_numLevels + g_numLevels) by ring.
  generalize (u32 (u32 (i * g_numPriorities) * g_numLevels)) as x.
  generalize (p * g_numLevels) as y.
  generalize (HTBBaseHandle g_numPriorities) as z.
  clear. intros z y x. unfold u32. dlia.
Qed.

Ltac no_qdisc H :=
  repeat match type of H with
         | context [if ?b then _ else _] => destruct b
         end;
  cbn [In fst snd app] in H;
  repeat (destruct H as [H | H]; [discriminate H |]);
  try (destruct H; fail).

Lemma reconcile_result_qdiscs env dst src p len rates bursts st a b h :
  In (AddHTBQdisc a b h)
     (snd (reconcile_result env dst src p len rates bursts st)) ->
  exists l, In l (chain_levels len) /\ 0 < l
            /\ h = HTBHandle (client_id st (dst, src)) p (l - 1).
Proof.
  unfold reconcile_result. rewrite <- (snapshot_id env (dst, src) st).
  assert (~ In (AddHTBQdisc a b h) (snd (snapshot env (dst, src) st))) as H0.
  { destruct (g_clients st !! (dst, src)) as [c |] eqn:E.
    - rewrite (snapshot_known _ _ _ c E). cbn [snd]. intros H. no_qdisc H.
    - rewrite (snapshot_new _ _ _ E). intros []. }
  destruct (snapshot env (dst, src) st) as [[[[c0 nextId] oldP] oldLen] t0].
  cbn [fst snd] in *. intros Hin.
  apply in_app_or in Hin as [Hin | Hin]; [contradiction |].
  apply in_app_or in Hin as [Hin | Hin];
    [exact (qdisc_of_walk _ _ _ _ _ _ _ _ _ _ _ Hin) |].
  exfalso.
  apply in_app_or in Hin as [Hin | Hin];
    [unfold base_filter_step in Hin; no_qdisc Hin |].
  apply in_app_or in Hin as [Hin | Hin];
    [unfold root_filter_step in Hin; no_qdisc Hin |].
  apply in_app_or in Hin as [Hin | Hin];
    [unfold prune_step in Hin; no_qdisc Hin |].
  unfold drop_step in Hin. no_qdisc Hin.
Qed.

(** X18: the bound of the [UpdateClients] handler keeps the chain inside
    the handle range of its client.  For a chain of at most
    [(g_numLevels + 1) * 2] entries, every qdisc [updateClient] adds has a
    handle [HTBHandle id priority k] with [k] below [g_numLevels].  The
    bound is tight: the handle of level [g_numLevels] would be
    [HTBHandle id (priority + 1) 0], the first handle of the next
    priority. *)
Theorem updateClient_qdisc_handles_in_range
    fuel env dst src p len rates bursts st :
  0 <= g_numLevels -> (g_numLevels + 1) * 2 < 2 ^ 32 ->
  0 <= len <= (g_numLevels + 1) * 2 ->
  (Z.to_nat (stages len) <= fuel)%nat ->
  exists st' t,
    updateClient fuel env dst src p len rates bursts st = Some (st', t)
    /\ (forall a b h, In (AddHTBQdisc a b h) t ->
          exists k, 0 <= k < g_numLevels
                    /\ h = HTBHandle (client_id st (dst, src)) p k)
    /\ HTBHandle (client_id st (dst, src)) p g_numLevels
       = HTBHandle (client_id st (dst, src)) (p + 1) 0.
Proof.
  intros HL Hfit Hlen Hf.
  assert (stages len <= g_numLevels + 1) as Hst by (unfold stages; dlia).
  destruct (bool_decide (g_clients st !! (dst, src) = None)
            && (p =? g_numPriorities)) eqn:Egate.
  - exists st, []. unfold updateClient. rewrite Egate.
    split; [reflexivity |]. split; [intros a b h [] |].
    apply HTBHandle_level_overflow.
  - assert (p <> g_numPriorities \/ is_Some (g_clients st !! (dst, src)))
      as Hgate.
    { apply andb_false_iff in Egate as [E | E].
      - right. apply bool_decide_eq_false in E.
        destruct (g_clients st !! (dst, src)); [eauto | congruence].
      - left. lia. }
    rewrite updateClient_total by (auto; lia).
    pose proof (reconcile_result_qdiscs env dst src p len rates bursts st)
      as Hq.
    destruct (reconcile_result _ _ _ _ _ _ _ _) as [[c nextId] t].
    eexists _, _. split; [reflexivity |].
    split; [| apply HTBHandle_level_overflow].
    intros a b h Hin. destruct (Hq a b h Hin) as (l & Hl & Hpos & ->).
    apply levels_from_bounds in Hl.
    exists (l - 1). split; [lia | reflexivity].
Qed.

(** * Start-up *)



Lemma initTC_loop_fixed n minRate : forall p0 rate ceil k,
  0 <= p0 -> p0 + Z.of_nat n <= 2 ^ 32 -> 0 <= k < Z.of_nat n ->
  let p := p0 + k in
  In (AddDSMARKQdisc (rootHTBMinor p) (DSMARKHandle p))
     (initTC_loop n minRate p0 rate ceil)
  /\ In (ChangeDSMARKClass (DSMARKHandle p) (dscp_value p))
        (initTC_loop n minRate p0 rate ceil)
  /\ In (Tc (AddHTBQdisc (DSMARKHandle p) 1 (HTBBaseHandle p)))
        (initTC_loop n minRate p0 rate ceil).
Proof.
  cbn zeta. induction n as [| n IH]; intros p0 rate ceil k Hp0 Hn Hk; [lia |].
  cbn [initTC_loop initTC_priority].
  destruct (Z.eq_dec k 0) as [-> | Hk0].
  - rewrite Z.add_0_r. cbn [app In]. auto 10.
  - rewrite (u32_small (p0 + 1)) by lia.
    replace (p0 + k) with (p0 + 1 + (k - 1)) by lia.
    destruct (IH (p0 + 1) (u32 (rate - minRate)) (u32 (ceil - minRate))
                 (k - 1)) as (H1 & H2 & H3); [lia | lia | lia |].
    cbn [app In]. auto 10.
Qed.

Lemma initTC_loop_length n minRate : forall p rate ceil,
  length (initTC_loop n minRate p rate ceil) = (5 * n)%nat.
Proof.
  induction n as [| n IH]; intros p rate ceil; [reflexivity |].
  cbn [initTC_loop initTC_priority app length]. rewrite IH. lia.
Qed.

Lemma dscp_value_plain p :
  dscp_value p = 32 * ((7 - p) mod 8).
Proof.
  unfold dscp_value, u32.
  change (2 ^ 5) with 32. change (2 ^ 8) with 256.
  change (2 ^ 32) with 4294967296.
  pose proof (Z.div_mod (7 - p) 4294967296 ltac:(lia)) as E1.
  pose proof (Z.mod_pos_bound (7 - p) 4294967296 ltac:(lia)) as B1.
  set (a := (7 - p) mod 4294967296) in *.
  pose proof (Z.div_mod (a * 32) 4294967296 ltac:(lia)) as E2.
  pose proof (Z.mod_pos_bound (a * 32) 4294967296 ltac:(lia)) as B2.
  set (b := (a * 32) mod 4294967296) in *.
  pose proof (Z.div_mod b 256 ltac:(lia)) as E3.
  pose proof (Z.mod_pos_bound b 256 ltac:(lia)) as B3.
  pose proof (Z.div_mod (7 - p) 8 ltac:(lia)) as E4.
  pose proof (Z.mod_pos_bound (7 - p) 8 ltac:(lia)) as B4.
  lia.
Qed.

(** X17: [initTC] issues [3 + 5 * g_numPriorities] commands, and for every
    priority [p] below [g_numPriorities] they include the DSMARK qdisc on
    the class of the priority, the DSCP value of its class and the base HTB
    qdisc [HTBBaseHandle p] under [DSMARKHandle p : 1], the qdisc under
    which [updateClient] puts the level-0 classes.  The DSCP byte is
    [32 * ((7 - p) mod 8)]: 224 (cs7) for priority 0 down to 0 for
    priority 7, and the same values again from priority 8 on. *)
Theorem initTC_per_priority p :
  0 <= p < g_numPriorities -> g_numPriorities < 2 ^ 32 ->
  length initTC = Z.to_nat (3 + 5 * g_numPriorities)
  /\ In (AddDSMARKQdisc (rootHTBMinor p) (DSMARKHandle p)) initTC
  /\ In (ChangeDSMARKClass (DSMARKHandle p) (32 * ((7 - p) mod 8))) initTC
  /\ In (Tc (AddHTBQdisc (DSMARKHandle p) 1 (HTBBaseHandle p))) initTC
  /\ (p <= 7 -> 32 * ((7 - p) mod 8) = 224 - 32 * p)
  /\ (p + 8 < g_numPriorities ->
      In (ChangeDSMARKClass (DSMARKHandle (p + 8)) (32 * ((7 - p) mod 8)))
         initTC).
Proof.
  intros Hp HP. unfold initTC.
  set (minRate := g_maxRate / 100).
  set (rate := u32 (minRate * u32 (g_numPriorities + 1))).
  split; [| split; [| split; [| split; [| split]]]].
  - rewrite length_app, initTC_loop_length. cbn [length]. lia.
  - apply in_or_app. right.
    apply (initTC_loop_fixed (Z.to_nat g_numPriorities) minRate 0 rate
             g_maxRate p); lia.
  - apply in_or_app. right. rewrite <- dscp_value_plain.
    apply (initTC_loop_fixed (Z.to_nat g_numPriorities) minRate 0 rate
             g_maxRate p); lia.
  - apply in_or_app. right.
    apply (initTC_loop_fixed (Z.to_nat g_numPriorities) minRate 0 rate
             g_maxRate p); lia.
  - intros H7. destruct Hp as [Hp0 _]. clear - Hp0 H7. dlia.
  - intros H8. apply in_or_app. right.
    replace ((7 - p) mod 8) with ((7 - (p + 8)) mod 8) by (clear; dlia).
    rewrite <- dscp_value_plain.
    apply (initTC_loop_fixed (Z.to_nat g_numPriorities) minRate 0 rate
             g_maxRate (p + 8)); lia.
Qed.

End NetEnforcer.

(** * The shipped configuration *)

Section Shipped.

Local Abbreviation P := 7.
Local Abbreviation L := 5.
Local Abbreviation maxRate := 125000000.
Local Abbreviation secs := ConvertTimeToSeconds_ns.

(** C10 as stated fails: with 32-bit handles a large client id makes
    [HTBHandle] wrap onto the base handle of priority 0, and the level-0
    minor of the last id is the reserved minor 1. *)
Lemma allocator_collides_after_wrap :
  in_range P L (AHTB 858993459 0 0)
  /\ in_range P L (AHTBBase 0)
  /\ allocated P L (AHTB 858993459 0 0) = allocated P L (AHTBBase 0)
  /\ AHTB 858993459 0 0 <> AHTBBase 0
  /\ HTBMinor 4294967295 0 = 1.
Proof.
  unfold in_range, is_uint, is_priority, is_level.
  repeat split; try lia; try reflexivity; discriminate.
Qed.

Lemma allocator_disjoint_without_wrap_witness :
  in_range P L (AHTB 3 2 1) /\ in_range P L (AHTBBase 2)
  /\ no_wrap P L (AHTB 3 2 1) /\ no_wrap P L (AHTBBase 2)
  /\ ((allocated P L (AHTB 3 2 1) = allocated P L (AHTBBase 2) ->
       AHTB 3 2 1 = AHTBBase 2)
      /\ HTBMinor 0 0 = 0 + 2
      /\ HTBMinor 0 0 <> 1
      /\ (HTBMinor 0 0 = HTBMinor 1 0 -> 0 = 1)).
Proof.
  assert (in_range P L (AHTB 3 2 1)) as Ra
    by (unfold in_range, is_uint, is_priority, is_level; lia).
  assert (in_range P L (AHTBBase 2)) as Rb
    by (unfold in_range, is_priority; lia).
  assert (no_wrap P L (AHTB 3 2 1)) as Wa
    by (unfold no_wrap, handles_fit; lia).
  assert (no_wrap P L (AHTBBase 2)) as Wb by (unfold no_wrap; lia).
  exact (conj Ra (conj Rb (conj Wa (conj Wb
           (allocator_disjoint_without_wrap P L (AHTB 3 2 1) (AHTBBase 2) 0 1
              Ra Rb Wa Wb ltac:(lia) ltac:(lia) ltac:(lia) ltac:(lia)))))).
Defined.

Lemma updateClient_one_class_per_level_witness :
  2 < P /\ 0 <= 4 < 2 ^ 32 /\ Z.even 4 = true
  /\ (Z.to_nat (4 / 2) <= 3)%nat
  /\ exists st' t,
       updateClient maxRate P L secs 3 quiet_env 1 2 2 4
                    sample_rates sample_bursts initial_state = Some (st', t)
       /\ List.filter is_AddHTBClass t
          = map (level_class P L (client_id initial_state (1, 2)) 2 4
                             sample_rates sample_bursts)
                (levels_from 0 (Z.to_nat (4 / 2)))
       /\ length (List.filter is_AddHTBClass t) = Z.to_nat (4 / 2)
       /\ (4 = (L + 1) * 2 ->
           length (List.filter is_AddHTBClass t) = Z.to_nat (L + 1)).
Proof.
  assert (2 < P) as H1 by lia.
  assert (0 <= 4 < 2 ^ 32) as H2 by lia.
  assert (Z.even 4 = true) as H3 by reflexivity.
  assert (Z.to_nat (4 / 2) <= 3)%nat as H4 by (vm_compute; lia).
  exact (conj H1 (conj H2 (conj H3 (conj H4
           (updateClient_one_class_per_level maxRate P L secs 3 quiet_env
              1 2 2 4 sample_rates sample_bursts initial_state
              H1 H2 H3 H4))))).
Defined.

Lemma updateClient_root_filter_follows_priority_witness :
  g_clients sample_state !! (1, 2) = Some sample_client
  /\ 4 * P + 2 < 2 ^ 32
  /\ 0 <= priority sample_client <= P /\ 0 <= 5 <= P
  /\ 0 <= 2 <= 2 ^ 32 - 2 /\ (Z.to_nat (stages 2) <= 1)%nat
  /\ exists c' t,
       reconcile maxRate P L secs 1 quiet_env 1 2 5 2
                 sample_rates sample_bursts sample_state
       = Some (c', g_nextId sample_state, t)
       /\ updateClient maxRate P L secs 1 quiet_env 1 2 5 2
                       sample_rates sample_bursts sample_state
          = Some (mkState (if 5 =? P
                           then delete (1, 2) (g_clients sample_state)
                           else <[(1, 2) := c']> (g_clients sample_state))
                          (g_nextId sample_state), t)
       /\ (priority sample_client <> 5 ->
           prevSentBytes c' = 0
           /\ List.filter is_root_filter t
              = (if priority sample_client <? P
                 then [RemoveFilter rootHTBHandle (id sample_client)] else [])
                ++ (if 5 <? P
                    then [AddFilter rootHTBHandle (id sample_client) 1 2
                                    (rootHTBMinor 5)]
                    else []))
       /\ (priority sample_client = 5 ->
           prevSentBytes c'
           = prevSentBytes (fst (updateSentBytes P secs quiet_env sample_client))
           /\ List.filter is_root_filter t = []).
Proof.
  assert (g_clients sample_state !! (1, 2) = Some sample_client) as H1
    by reflexivity.
  assert (4 * P + 2 < 2 ^ 32) as H2 by lia.
  assert (0 <= priority sample_client <= P) as H3 by (cbn; lia).
  assert (0 <= 5 <= P) as H4 by lia.
  assert (0 <= 2 <= 2 ^ 32 - 2) as H5 by lia.
  assert (Z.to_nat (stages 2) <= 1)%nat as H6 by (vm_compute; lia).
  exact (conj H1 (conj H2 (conj H3 (conj H4 (conj H5 (conj H6
           (updateClient_root_filter_follows_priority maxRate P L secs 1
              quiet_env 1 2 5 2 sample_rates sample_bursts sample_state
              sample_client H1 H2 H3 H4 H5 H6))))))).
Defined.

Lemma remove_clients_tears_down_witness :
  g_clients sample_state !! (1, 2) = Some sample_client
  /\ priority sample_client < P
  /\ updateClient maxRate P L secs 0 quiet_env 1 2 P 0 [] [] sample_state
     = Some (mkState (delete (1, 2) (g_clients sample_state)) 1,
             [ClassShow (HTBBaseHandle P 2);
              RemoveFilter rootHTBHandle 0;
              RemoveQdisc (HTBBaseHandle P 2) (HTBMinor 0 0)
                          (HTBHandle P L 0 2 0);
              RemoveFilter (HTBBaseHandle P 2) 0;
              RemoveClass (HTBBaseHandle P 2) (HTBMinor 0 0)])
  /\ net_enforcer_remove_clients_svc maxRate P L secs 0 (fun _ => quiet_env)
       [Prot.mkNetClient 1 2] sample_state
     = Some (mkState (delete (1, 2) (g_clients sample_state)) 1,
             [ClassShow (HTBBaseHandle P 2);
              RemoveFilter rootHTBHandle 0;
              RemoveQdisc (HTBBaseHandle P 2) (HTBMinor 0 0)
                          (HTBHandle P L 0 2 0);
              RemoveFilter (HTBBaseHandle P 2) 0;
              RemoveClass (HTBBaseHandle P 2) (HTBMinor 0 0)])
  /\ delete (1, 2) (g_clients sample_state) !! (1, 2) = None.
Proof.
  assert (g_clients sample_state !! (1, 2) = Some sample_client) as H1
    by reflexivity.
  assert (priority sample_client < P) as H2 by (cbn; lia).
  exact (conj H1 (conj H2
           (remove_clients_tears_down maxRate P L secs 0 (fun _ => quiet_env)
              1 2 sample_client sample_state H1 H2))).
Defined.

Lemma updateClient_twice_only_replaces_classes_witness :
  2 < P /\ 0 <= 4 <= 2 ^ 32 - 2 /\ (Z.to_nat (stages 4) <= 2)%nat
  /\ exists st1 t1 st2 t2 c1 c2,
       updateClient maxRate P L secs 2 quiet_env 1 2 2 4
                    sample_rates sample_bursts initial_state = Some (st1, t1)
       /\ updateClient maxRate P L secs 2 quiet_env 1 2 2 4
                       sample_rates sample_bursts st1 = Some (st2, t2)
       /\ g_clients st1 !! (1, 2) = Some c1
       /\ g_clients st2 !! (1, 2) = Some c2
       /\ priority c2 = priority c1
       /\ rateLimitLength c2 = rateLimitLength c1
       /\ rate c2 = rate c1
       /\ t2 = (if 0 <? 4 then [ClassShow (HTBBaseHandle P 2)] else [])
               ++ map (level_class P L (id c1) 2 4 sample_rates sample_bursts)
                      (levels_from 0 (Z.to_nat (stages 4)))
       /\ List.filter is_structural t2 = [].
Proof.
  assert (2 < P) as H1 by lia.
  assert (0 <= 4 <= 2 ^ 32 - 2) as H2 by lia.
  assert (Z.to_nat (stages 4) <= 2)%nat as H3 by (vm_compute; lia).
  exact (conj H1 (conj H2 (conj H3
           (updateClient_twice_only_replaces_classes maxRate P L secs 2
              quiet_env quiet_env 1 2 2 4 sample_rates sample_bursts
              initial_state H1 H2 H3)))).
Defined.

Lemma updateClient_delete_unknown_is_noop_witness :
  g_clients initial_state !! (1, 2) = None
  /\ updateClient maxRate P L secs 0 quiet_env 1 2 P 0 [] [] initial_state
     = Some (initial_state, []).
Proof.
  assert (g_clients initial_state !! (1, 2) = None) as H1 by reflexivity.
  exact (conj H1
           (updateClient_delete_unknown_is_noop maxRate P L secs 0 quiet_env
              1 2 0 [] [] initial_state H1)).
Defined.

(** C6 as stated fails: the handler accepts a chain of odd length and the
    table then holds an odd [rateLimitLength]. *)
Lemma odd_chain_length_is_reachable :
  net_enforcer_update_clients_svc maxRate P L secs 1 (fun _ => quiet_env)
    [odd_update] initial_state
  = Some (odd_state, [AddHTBClass (HTBBaseHandle P 0) 2 1000000 1000000
                                  1500 1500;
                      AddFilter (HTBBaseHandle P 0) 0 1 2 2;
                      AddFilter rootHTBHandle 0 1 2 1])
  /\ reachable maxRate P L secs odd_state
  /\ g_clients odd_state !! (1, 2) = Some odd_client
  /\ Z.even (rateLimitLength odd_client) = false.
Proof.
  split; [vm_compute; reflexivity |]. split; [| split; reflexivity].
  apply (reachable_serve maxRate P L secs 1%nat
           (UpdateClients (fun _ => quiet_env) [odd_update]) initial_state).
  - apply reachable_start.
  - vm_compute. reflexivity.
Qed.

(** C7, evaluated: a client at priority 1 without rate limits, as an update
    of a fresh address leaves it, has no byte counter, so both accumulators
    are 0 and the occupancy returned is 0/0: a NaN, which is not in [0, 1],
    whatever the clock and the counters read. *)
Theorem getOccupancy_without_rate_limit_is_nan (env : Env) :
  updateClient maxRate P L secs 0 quiet_env 1 2 1 0 [] [] initial_state
  = Some (unlimited_state, [AddFilter rootHTBHandle 0 1 2 (rootHTBMinor 1)])
  /\ let occupancy := fst (fst (getOccupancy P secs env 1 2 unlimited_state)) in
     PrimFloat.is_nan occupancy = true
     /\ (0 <=? occupancy)%float = false
     /\ (occupancy <=? 1)%float = false.
Proof.
  split; [vm_compute; reflexivity |]. vm_compute. repeat split.
Qed.

(** C8, evaluated: an occupancy query for an address that is not in the
    table returns 0 and leaves the id counter alone, but the table lookup
    creates a zeroed entry for the address. *)
Theorem getOccupancy_unknown_inserts_entry (env : Env) :
  g_clients initial_state !! (1, 2) = None
  /\ getOccupancy P secs env 1 2 initial_state = (0%float, queried_state, [])
  /\ g_clients queried_state !! (1, 2) = Some Client_zero
  /\ g_nextId queried_state = g_nextId initial_state.
Proof. repeat split. Qed.

(** C5, evaluated: after an occupancy query for the unknown address (1, 2)
    and an update for the new address (3, 4), the table holds two entries
    with id 0: the query inserted an entry with id 0 without advancing the
    counter, and the update handed out id 0 again. *)
Theorem id_shared_after_occupancy_query :
  serve maxRate P L secs 0 (GetOccupancy quiet_env (Prot.mkNetClient 1 2))
        initial_state = Some queried_state
  /\ serve maxRate P L secs 0 (UpdateClients (fun _ => quiet_env) [plain_update])
           queried_state = Some clashing_state
  /\ reachable maxRate P L secs clashing_state
  /\ (1, 2) <> (3, 4)
  /\ id <$> g_clients clashing_state !! (1, 2) = Some 0
  /\ id <$> g_clients clashing_state !! (3, 4) = Some 0.
Proof.
  assert (serve maxRate P L secs 0
            (GetOccupancy quiet_env (Prot.mkNetClient 1 2)) initial_state
          = Some queried_state) as S1 by (vm_compute; reflexivity).
  assert (serve maxRate P L secs 0
            (UpdateClients (fun _ => quiet_env) [plain_update]) queried_state
          = Some clashing_state) as S2 by (vm_compute; reflexivity).
  split; [exact S1 |]. split; [exact S2 |]. split.
  - eapply reachable_serve; [| exact S2].
    eapply reachable_serve; [apply reachable_start | exact S1].
  - split; [discriminate |]. split; vm_compute; reflexivity.
Qed.

(** ** Instances of the further properties *)

Lemma updateClient_first_update_witness :
  g_clients initial_state !! (1, 2) = None
  /\ 2 <> P /\ 0 <= 4 <= 2 ^ 32 - 2 /\ (Z.to_nat (stages 4) <= 2)%nat
  /\ updateClient maxRate P L secs 2 quiet_env 1 2 2 4
                  sample_rates sample_bursts initial_state
     = Some (mkState
               (<[(1, 2) :=
                    mkClient 0 2 4 (first_rate maxRate 4 sample_rates)
                             (u64 (GetTime quiet_env)) 0%float 0 0]>
                  (g_clients initial_state))
               (u32 (0 + 1)),
             flat_map (install_level P L 0 2 4 sample_rates sample_bursts)
                      (chain_levels 4)
             ++ (if 0 <? 4
                 then [AddFilter (HTBBaseHandle P 2) 0 1 2 (HTBMinor 0 0)]
                 else [])
             ++ (if 2 <? P
                 then [AddFilter rootHTBHandle 0 1 2 (rootHTBMinor 2)]
                 else [])).
Proof.
  assert (g_clients initial_state !! (1, 2) = None) as H1 by reflexivity.
  assert (2 <> P) as H2 by lia.
  assert (0 <= 4 <= 2 ^ 32 - 2) as H3 by lia.
  assert (Z.to_nat (stages 4) <= 2)%nat as H4 by (vm_compute; lia).
  exact (conj H1 (conj H2 (conj H3 (conj H4
           (updateClient_first_update maxRate P L secs 2 quiet_env 1 2 2 4
              sample_rates sample_bursts initial_state H1 H2 H3 H4))))).
Defined.

Lemma updateClient_priority_change_witness :
  g_clients sample_state !! (1, 2) = Some sample_client
  /\ priority sample_client <> 5
  /\ 0 <= 2 <= 2 ^ 32 - 2 /\ (Z.to_nat (stages 2) <= 1)%nat
  /\ updateClient maxRate P L secs 1 quiet_env 1 2 5 2
                  sample_rates sample_bursts sample_state
     = Some (mkState
               (if 5 =? P
                then delete (1, 2) (g_clients sample_state)
                else <[(1, 2) :=
                         set_prevSentBytes
                           (set_policy
                              (fst (updateSentBytes P secs quiet_env
                                                    sample_client))
                              5 2 (first_rate maxRate 2 sample_rates))
                           0]> (g_clients sample_state))
               (g_nextId sample_state),
             (if 0 <? rateLimitLength sample_client
              then [ClassShow (HTBBaseHandle P (priority sample_client))]
              else [])
             ++ flat_map (install_level P L (id sample_client) 5 2
                                        sample_rates sample_bursts)
                         (chain_levels 2)
             ++ (if 0 <? 2
                 then [AddFilter (HTBBaseHandle P 5) (id sample_client) 1 2
                                 (HTBMinor (id sample_client) 0)]
                 else [])
             ++ (if priority sample_client <? P
                 then [RemoveFilter rootHTBHandle (id sample_client)] else [])
             ++ (if 5 <? P
                 then [AddFilter rootHTBHandle (id sample_client) 1 2
                                 (rootHTBMinor 5)]
                 else [])
             ++ teardown_cmds P L (id sample_client) (priority sample_client)
                              (rateLimitLength sample_client)).
Proof.
  assert (g_clients sample_state !! (1, 2) = Some sample_client) as H1
    by reflexivity.
  assert (priority sample_client <> 5) as H2 by (cbn; lia).
  assert (0 <= 2 <= 2 ^ 32 - 2) as H3 by lia.
  assert (Z.to_nat (stages 2) <= 1)%nat as H4 by (vm_compute; lia).
  exact (conj H1 (conj H2 (conj H3 (conj H4
           (updateClient_priority_change maxRate P L secs 1 quiet_env 1 2 5 2
              sample_rates sample_bursts sample_state sample_client
              H1 H2 H3 H4))))).
Defined.

Lemma updateClient_same_priority_witness :
  g_clients sample_state !! (1, 2) = Some sample_client
  /\ 0 <= 2 <= 2 ^ 32 - 2 /\ (Z.to_nat (stages 2) <= 1)%nat
  /\ updateClient maxRate P L secs 1 quiet_env 1 2 (priority sample_client) 2
                  sample_rates sample_bursts sample_state
     = Some (mkState
               (if priority sample_client =? P
                then delete (1, 2) (g_clients sample_state)
                else <[(1, 2) :=
                         set_policy
                           (fst (updateSentBytes P secs quiet_env
                                                 sample_client))
                           (priority sample_client) 2
                           (first_rate maxRate 2 sample_rates)]>
                       (g_clients sample_state))
               (g_nextId sample_state),
             (if 0 <? rateLimitLength sample_client
              then [ClassShow (HTBBaseHandle P (priority sample_client))]
              else [])
             ++ flat_map (extend_level P L (id sample_client)
                            (priority sample_client) 2 sample_rates
                            sample_bursts (rateLimitLength sample_client))
                         (chain_levels 2)
             ++ (if (0 <? 2) && (rateLimitLength sample_client =? 0)
                 then [AddFilter (HTBBaseHandle P (priority sample_client))
                                 (id sample_client) 1 2
                                 (HTBMinor (id sample_client) 0)]
                 else [])
             ++ (if (2 <? rateLimitLength sample_client)
                    && (2 * stages 2 <? rateLimitLength sample_client)
                 then [RemoveQdisc
                         (class_parent P L (id sample_client)
                            (priority sample_client)
                            (Z.max 0 (stages 2 - 1)))
                         (HTBMinor (id sample_client)
                                   (Z.max 0 (stages 2 - 1)))
                         (HTBHandle P L (id sample_client)
                            (priority sample_client)
                            (Z.max 0 (stages 2 - 1)))]
                 else [])
             ++ (if (0 <? rateLimitLength sample_client) && (2 =? 0)
                 then [RemoveFilter (HTBBaseHandle P (priority sample_client))
                                    (id sample_client);
                       RemoveClass (HTBBaseHandle P (priority sample_client))
                                   (HTBMinor (id sample_client) 0)]
                 else [])).
Proof.
  assert (g_clients sample_state !! (1, 2) = Some sample_client) as H1
    by reflexivity.
  assert (0 <= 2 <= 2 ^ 32 - 2) as H2 by lia.
  assert (Z.to_nat (stages 2) <= 1)%nat as H3 by (vm_compute; lia).
  exact (conj H1 (conj H2 (conj H3
           (updateClient_same_priority maxRate P L secs 1 quiet_env 1 2 2
              sample_rates sample_bursts sample_state sample_client
              H1 H2 H3)))).
Defined.

Lemma updateClient_other_addresses_witness :
  updateClient maxRate P L secs 0 quiet_env 3 4 1 0 [] [] sample_state
  = Some (two_clients_state,
          [AddFilter rootHTBHandle 1 3 4 (rootHTBMinor 1)])
  /\ (1, 2) <> (3, 4)
  /\ g_clients two_clients_state !! (1, 2) = g_clients sample_state !! (1, 2).
Proof.
  assert (updateClient maxRate P L secs 0 quiet_env 3 4 1 0 [] [] sample_state
          = Some (two_clients_state,
                  [AddFilter rootHTBHandle 1 3 4 (rootHTBMinor 1)])) as H1
    by (vm_compute; reflexivity).
  assert ((1, 2) <> (3, 4)) as H2 by discriminate.
  exact (conj H1 (conj H2
           (updateClient_other_addresses maxRate P L secs 0 quiet_env 3 4 1 0
              [] [] sample_state two_clients_state _ (1, 2) H1 H2))).
Defined.

Lemma update_then_remove_restores_table_witness :
  g_clients initial_state !! (1, 2) = None
  /\ 2 < P /\ 0 <= 4 <= 2 ^ 32 - 2 /\ (Z.to_nat (stages 4) <= 2)%nat
  /\ exists st1 t1 t2,
       updateClient maxRate P L secs 2 quiet_env 1 2 2 4
                    sample_rates sample_bursts initial_state = Some (st1, t1)
       /\ net_enforcer_remove_clients_svc maxRate P L secs 2
            (fun _ => quiet_env) [Prot.mkNetClient 1 2] st1
          = Some (mkState (g_clients initial_state)
                          (u32 (g_nextId initial_state + 1)), t2)
       /\ t2 = (if 0 <? 4 then [ClassShow (HTBBaseHandle P 2)] else [])
               ++ [RemoveFilter rootHTBHandle (g_nextId initial_state)]
               ++ teardown_cmds P L (g_nextId initial_state) 2 4
       /\ (forall h j d s m,
             In (AddFilter h j d s m) t1 -> In (RemoveFilter h j) t2).
Proof.
  assert (g_clients initial_state !! (1, 2) = None) as H1 by reflexivity.
  assert (2 < P) as H2 by lia.
  assert (0 <= 4 <= 2 ^ 32 - 2) as H3 by lia.
  assert (Z.to_nat (stages 4) <= 2)%nat as H4 by (vm_compute; lia).
  exact (conj H1 (conj H2 (conj H3 (conj H4
           (update_then_remove_restores_table maxRate P L secs 2 quiet_env
              (fun _ => quiet_env) 1 2 2 4 sample_rates sample_bursts
              initial_state H1 H2 H3 H4))))).
Defined.

Lemma sample_state_ids_fresh : ids_fresh sample_state.
Proof.
  split.
  - intros addr c H. cbn in H.
    apply lookup_singleton_Some in H as [_ <-]. cbn. lia.
  - intros a1 a2 c1 c2 H1 H2 _. cbn in H1, H2.
    apply lookup_singleton_Some in H1 as [<- _].
    apply lookup_singleton_Some in H2 as [<- _]. reflexivity.
Defined.

Lemma serve_keeps_ids_fresh_witness :
  ids_fresh sample_state
  /\ 0 <= g_nextId sample_state
  /\ g_nextId sample_state
     + request_size (UpdateClients (fun _ => quiet_env) [plain_update])
     < 2 ^ 32
  /\ query_known (UpdateClients (fun _ => quiet_env) [plain_update])
                 sample_state
  /\ serve maxRate P L secs 0
           (UpdateClients (fun _ => quiet_env) [plain_update]) sample_state
     = Some two_clients_state
  /\ (ids_fresh two_clients_state
      /\ g_nextId sample_state <= g_nextId two_clients_state
         <= g_nextId sample_state
            + request_size (UpdateClients (fun _ => quiet_env) [plain_update])).
Proof.
  pose proof sample_state_ids_fresh as H1.
  assert (0 <= g_nextId sample_state) as H2 by (cbn; lia).
  assert (g_nextId sample_state
          + request_size (UpdateClients (fun _ => quiet_env) [plain_update])
          < 2 ^ 32) as H3 by (cbn; lia).
  assert (query_known (UpdateClients (fun _ => quiet_env) [plain_update])
                      sample_state) as H4 by exact I.
  assert (serve maxRate P L secs 0
            (UpdateClients (fun _ => quiet_env) [plain_update]) sample_state
          = Some two_clients_state) as H5 by (vm_compute; reflexivity).
  exact (conj H1 (conj H2 (conj H3 (conj H4 (conj H5
           (serve_keeps_ids_fresh maxRate P L secs 0
              (UpdateClients (fun _ => quiet_env) [plain_update])
              sample_state two_clients_state H1 H2 H3 H4 H5)))))).
Defined.

Lemma reachable_priority_bounded_witness :
  0 < P
  /\ reachable maxRate P L secs unlimited_state
  /\ g_clients unlimited_state !! (1, 2) = Some unlimited_client
  /\ priority unlimited_client < P.
Proof.
  assert (0 < P) as H1 by lia.
  assert (reachable maxRate P L secs unlimited_state) as H2.
  { apply (reachable_serve maxRate P L secs 0%nat
             (UpdateClients (fun _ => quiet_env)
                [Prot.mkNetClientUpdate (Prot.mkNetClient 1 2) 1 [] []])
             initial_state).
    - apply reachable_start.
    - vm_compute. reflexivity. }
  assert (g_clients unlimited_state !! (1, 2) = Some unlimited_client) as H3
    by reflexivity.
  exact (conj H1 (conj H2 (conj H3
           (reachable_priority_bounded maxRate P L secs unlimited_state
              (1, 2) unlimited_client H1 H2 H3)))).
Defined.

Lemma getOccupancy_priority_zero_witness :
  g_clients top_state !! (1, 2) = Some top_client
  /\ priority top_client = 0
  /\ getOccupancy P secs quiet_env 1 2 top_state = (0%float, top_state, []).
Proof.
  assert (g_clients top_state !! (1, 2) = Some top_client) as H1
    by reflexivity.
  assert (priority top_client = 0) as H2 by reflexivity.
  exact (conj H1 (conj H2
           (getOccupancy_priority_zero P secs quiet_env 1 2 top_state
              top_client H1 H2))).
Defined.


Lemma updateClient_never_returns_at_max_length_witness :
  (2 <> P \/ is_Some (g_clients initial_state !! (1, 2)))
  /\ updateClient maxRate P L secs 1000 quiet_env 1 2 2 (2 ^ 32 - 1)
                  sample_rates sample_bursts initial_state = None.
Proof.
  assert (2 <> P) as H1 by lia.
  exact (conj (or_introl H1)
           (updateClient_never_returns_at_max_length maxRate P L secs 1000
              quiet_env 1 2 2 sample_rates sample_bursts initial_state
              (or_introl H1))).
Defined.


Lemma initTC_per_priority_witness :
  0 <= 2 < P /\ P < 2 ^ 32
  /\ (length (initTC maxRate P) = Z.to_nat (3 + 5 * P)
      /\ In (AddDSMARKQdisc (rootHTBMinor 2) (DSMARKHandle P 2))
            (initTC maxRate P)
      /\ In (ChangeDSMARKClass (DSMARKHandle P 2) (32 * ((7 - 2) mod 8)))
            (initTC maxRate P)
      /\ In (Tc (AddHTBQdisc (DSMARKHandle P 2) 1 (HTBBaseHandle P 2)))
            (initTC maxRate P)
      /\ (2 <= 7 -> 32 * ((7 - 2) mod 8) = 224 - 32 * 2)
      /\ (2 + 8 < P ->
          In (ChangeDSMARKClass (DSMARKHandle P (2 + 8))
                                (32 * ((7 - 2) mod 8)))
             (initTC maxRate P))).
Proof.
  assert (0 <= 2 < P) as H1 by lia.
  assert (P < 2 ^ 32) as H2 by lia.
  exact (conj H1 (conj H2 (initTC_per_priority maxRate P 2 H1 H2))).
Defined.

Lemma updateClient_qdisc_handles_in_range_witness :
  0 <= L /\ (L + 1) * 2 < 2 ^ 32 /\ 0 <= 4 <= (L + 1) * 2
  /\ (Z.to_nat (stages 4) <= 2)%nat
  /\ exists st' t,
       updateClient maxRate P L secs 2 quiet_env 1 2 2 4
                    sample_rates sample_bursts initial_state = Some (st', t)
       /\ (forall a b h, In (AddHTBQdisc a b h) t ->
             exists k, 0 <= k < L
                       /\ h = HTBHandle P L (client_id initial_state (1, 2))
                                        2 k)
       /\ HTBHandle P L (client_id initial_state (1, 2)) 2 L
          = HTBHandle P L (client_id initial_state (1, 2)) (2 + 1) 0.
Proof.
  assert (0 <= L) as H1 by lia.
  assert ((L + 1) * 2 < 2 ^ 32) as H2 by lia.
  assert (0 <= 4 <= (L + 1) * 2) as H3 by lia.
  assert (Z.to_nat (stages 4) <= 2)%nat as H4 by (vm_compute; lia).
  exact (conj H1 (conj H2 (conj H3 (conj H4
           (updateClient_qdisc_handles_in_range maxRate P L secs 2 quiet_env
              1 2 2 4 sample_rates sample_bursts initial_state
              H1 H2 H3 H4))))).
Defined.

End Shipped.
